(** * flowchain-node: the Stratum bridge client ([consensus/client.js])

    A shallow embedding of the client's work store, inbound data handlers,
    virtual-block aggregator and submission broadcaster, together with the
    part of the JavaScript runtime they rely on ([JSON.parse],
    [JSON.stringify], [String.prototype.replace], property access and
    [typeof]).

    Conventions.
    - A JavaScript string is the list of its UTF-16 code units.
    - [undefined] is [None] in [option json]; every other value the client
      handles is a JSON value.
    - A JSON number is kept as the exact decimal [m * 10^e] it was written
      as; rounding to binary64 is outside the model.  An integer written
      without exponent prints as JavaScript prints it; a number with an
      exponent or a fraction prints as [m], [e] and the exponent, which
      JavaScript reads as the same number.
    - An object is the list of its own properties in insertion order with
      unique keys (the reordering of array-index keys is not modelled). *)

From Stdlib Require Import List ZArith NArith Lia Bool String Ascii.
From Stdlib Require DecimalFacts DecimalN.
Import ListNotations.

#[local] Set Warnings "-register-all".
Local Open Scope N_scope.

(** ** Strings *)

Definition jschar := N.
Definition jsstring := list jschar.

Definition chr (a : ascii) : jschar := N_of_ascii a.

Definition js (s : string) : jsstring :=
  map N_of_ascii (list_ascii_of_string s).

Fixpoint jsstring_eqb (a b : jsstring) : bool :=
  match a, b with
  | [], [] => true
  | x :: a', y :: b' => (x =? y) && jsstring_eqb a' b'
  | _, _ => false
  end.

(** [strip_prefix p s] is [Some r] when [s = p ++ r]. *)
Fixpoint strip_prefix (p s : jsstring) : option jsstring :=
  match p with
  | [] => Some s
  | x :: p' =>
      match s with
      | y :: s' => if x =? y then strip_prefix p' s' else None
      | [] => None
      end
  end.

(** ** JSON values *)

Inductive json : Type :=
| JNull
| JBool (b : bool)
| JNum (m e : Z)
| JStr (s : jsstring)
| JArr (l : list json)
| JObj (kvs : list (jsstring * json)).

(** A JavaScript value: [None] is [undefined]. *)
Definition value := option json.

Definition undefined : value := None.

Inductive jstype :=
| TUndefined | TObject | TBoolean | TNumber | TString.

Definition typeof (v : value) : jstype :=
  match v with
  | None => TUndefined
  | Some JNull => TObject
  | Some (JBool _) => TBoolean
  | Some (JNum _ _) => TNumber
  | Some (JStr _) => TString
  | Some (JArr _) => TObject
  | Some (JObj _) => TObject
  end.

Definition jstype_eqb (a b : jstype) : bool :=
  match a, b with
  | TUndefined, TUndefined | TObject, TObject | TBoolean, TBoolean
  | TNumber, TNumber | TString, TString => true
  | _, _ => false
  end.

(** ToBoolean. *)
Definition truthy (v : value) : bool :=
  match v with
  | None => false
  | Some JNull => false
  | Some (JBool b) => b
  | Some (JNum m _) => negb (m =? 0)%Z
  | Some (JStr s) => match s with [] => false | _ => true end
  | Some (JArr _) => true
  | Some (JObj _) => true
  end.

(** Own properties of an object. *)
Fixpoint lookup {A : Type} (k : jsstring) (o : list (jsstring * A)) : option A :=
  match o with
  | [] => None
  | (k', v) :: r => if jsstring_eqb k k' then Some v else lookup k r
  end.

(** [o[k] = v]: an existing key keeps its place, a new one goes last. *)
Fixpoint obj_set {A : Type} (k : jsstring) (v : A) (o : list (jsstring * A))
  : list (jsstring * A) :=
  match o with
  | [] => [(k, v)]
  | (k', v') :: r =>
      if jsstring_eqb k k' then (k, v) :: r else (k', v') :: obj_set k v r
  end.

Definition has_key {A : Type} (k : jsstring) (o : list (jsstring * A)) : bool :=
  match lookup k o with Some _ => true | None => false end.

Fixpoint unique_keys {A : Type} (o : list (jsstring * A)) : bool :=
  match o with
  | [] => true
  | (k, _) :: r => negb (has_key k r) && unique_keys r
  end.

(** The values JavaScript can build: objects have no repeated key. *)
Fixpoint wf_json (v : json) : bool :=
  match v with
  | JArr l => forallb wf_json l
  | JObj kvs =>
      unique_keys kvs && forallb (fun kv => wf_json (snd kv)) kvs
  | _ => true
  end.

(** ** JSON.stringify *)

Fixpoint uint_chars (d : Decimal.uint) : jsstring :=
  match d with
  | Decimal.Nil => []
  | Decimal.D0 d => 48 :: uint_chars d
  | Decimal.D1 d => 49 :: uint_chars d
  | Decimal.D2 d => 50 :: uint_chars d
  | Decimal.D3 d => 51 :: uint_chars d
  | Decimal.D4 d => 52 :: uint_chars d
  | Decimal.D5 d => 53 :: uint_chars d
  | Decimal.D6 d => 54 :: uint_chars d
  | Decimal.D7 d => 55 :: uint_chars d
  | Decimal.D8 d => 56 :: uint_chars d
  | Decimal.D9 d => 57 :: uint_chars d
  end.

Definition Z_chars (z : Z) : jsstring :=
  (if (z <? 0)%Z then [chr "-"] else [])
    ++ uint_chars (N.to_uint (Z.abs_N z)).

Definition number_chars (m e : Z) : jsstring :=
  Z_chars m ++ (if (e =? 0)%Z then [] else chr "e" :: Z_chars e).

Definition hex_digit (n : N) : jschar :=
  if n <? 10 then 48 + n else 87 + n.

(** QuoteJSONString, one code unit at a time. *)
Definition escape_char (c : jschar) : jsstring :=
  if c =? 34 then [92; 34]
  else if c =? 92 then js "\\"
  else if c =? 8 then js "\b"
  else if c =? 12 then js "\f"
  else if c =? 10 then js "\n"
  else if c =? 13 then js "\r"
  else if c =? 9 then js "\t"
  else if c <? 32 then js "\u00" ++ [hex_digit (c / 16); hex_digit (c mod 16)]
  else [c].

Definition quote (s : jsstring) : jsstring :=
  34 :: flat_map escape_char s ++ [34].

Fixpoint join_comma (l : list jsstring) : jsstring :=
  match l with
  | [] => []
  | x :: r =>
      match r with
      | [] => x
      | _ :: _ => x ++ chr "," :: join_comma r
      end
  end.

Fixpoint JSON_stringify (v : json) : jsstring :=
  match v with
  | JNull => js "null"
  | JBool true => js "true"
  | JBool false => js "false"
  | JNum m e => number_chars m e
  | JStr s => quote s
  | JArr l => chr "[" :: join_comma (map JSON_stringify l) ++ [chr "]"]
  | JObj kvs =>
      chr "{"
        :: join_comma
             (map (fun kv => quote (fst kv) ++ chr ":" :: JSON_stringify (snd kv))
                  kvs)
        ++ [chr "}"]
  end.

(** ** JSON.parse *)

Definition is_ws (c : jschar) : bool :=
  (c =? 32) || (c =? 9) || (c =? 10) || (c =? 13).

Fixpoint skip_ws (s : jsstring) : jsstring :=
  match s with
  | [] => []
  | c :: r => if is_ws c then skip_ws r else s
  end.

Definition hex_val (c : jschar) : option N :=
  if (48 <=? c) && (c <=? 57) then Some (c - 48)
  else if (97 <=? c) && (c <=? 102) then Some (c - 87)
  else if (65 <=? c) && (c <=? 70) then Some (c - 55)
  else None.

Definition hex4 (a b c d : jschar) : option jschar :=
  match hex_val a, hex_val b, hex_val c, hex_val d with
  | Some x, Some y, Some z, Some w => Some (((x * 16 + y) * 16 + z) * 16 + w)
  | _, _, _, _ => None
  end.

Definition simple_escape (c : jschar) : option jschar :=
  if c =? 34 then Some 34
  else if c =? 92 then Some 92
  else if c =? 47 then Some 47
  else if c =? 98 then Some 8
  else if c =? 102 then Some 12
  else if c =? 110 then Some 10
  else if c =? 114 then Some 13
  else if c =? 116 then Some 9
  else None.

Definition cons_fst {A B : Type} (a : A) (r : option (list A * B))
  : option (list A * B) :=
  match r with
  | Some (l, b) => Some (a :: l, b)
  | None => None
  end.

(** The characters of a string literal after its opening quote. *)
Fixpoint parse_chars (s : jsstring) : option (jsstring * jsstring) :=
  match s with
  | [] => None
  | c :: r =>
      if c =? 34 then Some ([], r)
      else if c =? 92 then
        match r with
        | [] => None
        | x :: r1 =>
            if x =? 117 then
              match r1 with
              | h1 :: h2 :: h3 :: h4 :: r2 =>
                  match hex4 h1 h2 h3 h4 with
                  | Some u => cons_fst u (parse_chars r2)
                  | None => None
                  end
              | _ => None
              end
            else
              match simple_escape x with
              | Some u => cons_fst u (parse_chars r1)
              | None => None
              end
        end
      else if c <? 32 then None
      else cons_fst c (parse_chars r)
  end.

Definition digit_of (c : jschar) : option (Decimal.uint -> Decimal.uint) :=
  if c =? 48 then Some Decimal.D0
  else if c =? 49 then Some Decimal.D1
  else if c =? 50 then Some Decimal.D2
  else if c =? 51 then Some Decimal.D3
  else if c =? 52 then Some Decimal.D4
  else if c =? 53 then Some Decimal.D5
  else if c =? 54 then Some Decimal.D6
  else if c =? 55 then Some Decimal.D7
  else if c =? 56 then Some Decimal.D8
  else if c =? 57 then Some Decimal.D9
  else None.

(** The longest run of decimal digits at the head of [s]. *)
Fixpoint span_digits (s : jsstring) : Decimal.uint * jsstring :=
  match s with
  | [] => (Decimal.Nil, [])
  | c :: r =>
      match digit_of c with
      | Some d => let (ds, r') := span_digits r in (d ds, r')
      | None => (Decimal.Nil, s)
      end
  end.

(** [int]: a single [0], or digits not starting with [0]. *)
Definition parse_int (s : jsstring) : option (Decimal.uint * jsstring) :=
  match span_digits s with
  | (Decimal.Nil, _) => None
  | (Decimal.D0 Decimal.Nil, r) => Some (Decimal.D0 Decimal.Nil, r)
  | (Decimal.D0 _, _) => None
  | (d, r) => Some (d, r)
  end.

(** [frac]: nothing, or a dot and at least one digit. *)
Definition parse_frac (s : jsstring) : option (Decimal.uint * jsstring) :=
  match s with
  | c :: r =>
      if c =? 46 then
        match span_digits r with
        | (Decimal.Nil, _) => None
        | (d, r') => Some (d, r')
        end
      else Some (Decimal.Nil, s)
  | [] => Some (Decimal.Nil, s)
  end.

Definition parse_exp_digits (neg : bool) (s : jsstring) : option (Z * jsstring) :=
  match span_digits s with
  | (Decimal.Nil, _) => None
  | (d, r) =>
      let n := Z.of_N (N.of_uint d) in
      Some (if neg then (- n)%Z else n, r)
  end.

(** [exp]: nothing, or [e]/[E], an optional sign and at least one digit. *)
Definition parse_exp (s : jsstring) : option (Z * jsstring) :=
  match s with
  | c :: r =>
      if (c =? 101) || (c =? 69) then
        match r with
        | x :: r' =>
            if x =? 45 then parse_exp_digits true r'
            else if x =? 43 then parse_exp_digits false r'
            else parse_exp_digits false r
        | [] => None
        end
      else Some (0%Z, s)
  | [] => Some (0%Z, s)
  end.

Definition parse_unsigned (neg : bool) (s : jsstring)
  : option (json * jsstring) :=
  match parse_int s with
  | None => None
  | Some (i, r1) =>
      match parse_frac r1 with
      | None => None
      | Some (f, r2) =>
          match parse_exp r2 with
          | None => None
          | Some (x, r3) =>
              let n := Z.of_N (N.of_uint (Decimal.app i f)) in
              Some (JNum (if neg then (- n)%Z else n)
                         (x - Z.of_nat (Decimal.nb_digits f))%Z,
                    r3)
          end
      end
  end.

Definition parse_number (s : jsstring) : option (json * jsstring) :=
  match s with
  | c :: r => if c =? 45 then parse_unsigned true r else parse_unsigned false s
  | [] => None
  end.

Section Sequences.
(** The tails of arrays and objects, over the parser [pv] of one value.
    [g] bounds the number of elements; the input's length is enough. *)
Variable pv : jsstring -> option (json * jsstring).

Fixpoint parse_elements (g : nat) (s : jsstring)
  : option (list json * jsstring) :=
  match g with
  | O => None
  | S g' =>
      match pv s with
      | None => None
      | Some (v, r) =>
          match skip_ws r with
          | c :: r' =>
              if c =? 44 then cons_fst v (parse_elements g' r')
              else if c =? 93 then Some ([v], r')
              else None
          | [] => None
          end
      end
  end.

Fixpoint parse_members (g : nat) (s : jsstring)
  : option (list (jsstring * json) * jsstring) :=
  match g with
  | O => None
  | S g' =>
      match skip_ws s with
      | q :: r0 =>
          if q =? 34 then
            match parse_chars r0 with
            | None => None
            | Some (k, r1) =>
                match skip_ws r1 with
                | c :: r2 =>
                    if c =? 58 then
                      match pv r2 with
                      | None => None
                      | Some (v, r3) =>
                          match skip_ws r3 with
                          | d :: r4 =>
                              if d =? 44
                              then cons_fst (k, v) (parse_members g' r4)
                              else if d =? 125 then Some ([(k, v)], r4)
                              else None
                          | [] => None
                          end
                      end
                    else None
                | [] => None
                end
            end
          else None
      | [] => None
      end
  end.
End Sequences.

(** A repeated key overwrites the earlier value and keeps its place. *)
Definition mk_object (ps : list (jsstring * json)) : list (jsstring * json) :=
  fold_left (fun o kv => obj_set (fst kv) (snd kv) o) ps [].

Definition parse_literal (s : jsstring) : option (json * jsstring) :=
  match strip_prefix (js "true") s with
  | Some r => Some (JBool true, r)
  | None =>
      match strip_prefix (js "false") s with
      | Some r => Some (JBool false, r)
      | None =>
          match strip_prefix (js "null") s with
          | Some r => Some (JNull, r)
          | None => parse_number s
          end
      end
  end.

Fixpoint parse_value (fuel : nat) (s : jsstring) : option (json * jsstring) :=
  match fuel with
  | O => None
  | S f =>
      match skip_ws s with
      | [] => None
      | c :: r =>
          if c =? 123 then
            match skip_ws r with
            | x :: r' =>
                if x =? 125 then Some (JObj [], r')
                else
                  match parse_members (parse_value f) (List.length r) r with
                  | Some (ps, r'') => Some (JObj (mk_object ps), r'')
                  | None => None
                  end
            | [] => None
            end
          else if c =? 91 then
            match skip_ws r with
            | x :: r' =>
                if x =? 93 then Some (JArr [], r')
                else
                  match parse_elements (parse_value f) (List.length r) r with
                  | Some (vs, r'') => Some (JArr vs, r'')
                  | None => None
                  end
            | [] => None
            end
          else if c =? 34 then
            match parse_chars r with
            | Some (str, r') => Some (JStr str, r')
            | None => None
            end
          else parse_literal (c :: r)
      end
  end.

(** [JSON.parse]: [None] is the [SyntaxError]. *)
Definition JSON_parse (s : jsstring) : option json :=
  match parse_value (S (List.length s)) s with
  | Some (v, r) =>
      match skip_ws r with
      | [] => Some v
      | _ :: _ => None
      end
  | None => None
  end.

(** ** String.prototype.replace, as [onDataSetWork] uses it *)

(** [\s] of a JavaScript regular expression. *)
Definition is_space (c : jschar) : bool :=
  ((9 <=? c) && (c <=? 13)) || (c =? 32) || (c =? 160) || (c =? 5760)
  || ((8192 <=? c) && (c <=? 8202)) || (c =? 8232) || (c =? 8233)
  || (c =? 8239) || (c =? 8287) || (c =? 12288) || (c =? 65279).

Fixpoint drop_spaces (s : jsstring) : jsstring :=
  match s with
  | [] => []
  | c :: r => if is_space c then drop_spaces r else s
  end.

(** [s.replace(/\n+\s+/, '')]: the leftmost match starts at the first line
    feed that is followed by white space and, both quantifiers being greedy,
    runs to the end of that white space; only this match is removed. *)
Fixpoint replace_newlines (s : jsstring) : jsstring :=
  match s with
  | [] => []
  | c :: r =>
      match r with
      | [] => s
      | x :: _ =>
          if (c =? 10) && is_space x then drop_spaces r
          else c :: replace_newlines r
      end
  end.

(** [s.replace(/}{/g, '},{')]. *)
Fixpoint replace_braces (s : jsstring) : jsstring :=
  match s with
  | [] => []
  | c :: r =>
      match r with
      | x :: r' =>
          if (c =? 125) && (x =? 123)
          then 125 :: 44 :: 123 :: replace_braces r'
          else c :: replace_braces r
      | [] => s
      end
  end.

(** ** Property access *)

Inductive error := TypeError.

Inductive outcome (A : Type) : Type :=
| Ret (a : A)
| Throw (e : error).
Arguments Ret {A} a.
Arguments Throw {A} e.

Definition flatten (v : option value) : value :=
  match v with Some x => x | None => None end.

(** [v.k] for a property name [k] that no prototype defines ([id],
    [result], [work], [socketId]). *)
Definition get_prop (v : value) (k : jsstring) : outcome value :=
  match v with
  | None => Throw TypeError
  | Some JNull => Throw TypeError
  | Some (JObj kvs) => Ret (lookup k kvs)
  | Some _ => Ret undefined
  end.

(** [v[i]] for a literal index [i]. *)
Definition get_index (v : value) (i : nat) : outcome value :=
  match v with
  | None => Throw TypeError
  | Some JNull => Throw TypeError
  | Some (JArr l) => Ret (nth_error l i)
  | Some (JObj kvs) => Ret (lookup (uint_chars (Nat.to_uint i)) kvs)
  | Some (JStr s) =>
      Ret (match nth_error s i with Some c => Some (JStr [c]) | None => None end)
  | Some _ => Ret undefined
  end.

(** ** libs/stratum *)

(** Modelled from the spec: [stratumDeserialize] of [libs/stratum], which is
    not part of the sources.  The client reads its result as the parsed
    message, treats a falsy result as a failed parse, and also hands it
    messages that are already structured: a string is parsed as JSON, with
    [null] for text that does not parse; a structured value is returned as
    it is; anything else has nothing to parse. *)
Definition stratumDeserialize (d : value) : value :=
  match d with
  | Some (JStr s) =>
      match JSON_parse s with
      | Some v => Some v
      | None => Some JNull
      end
  | Some (JArr l) => d
  | Some (JObj kvs) => d
  | _ => Some JNull
  end.

(** ** The client's state *)

Record PeerServer := mkPeerServer {
  host : jsstring;
  port : Z;
  server_id : Z
}.

Record ApiServer := mkApiServer {
  api_port : Z;
  api_host : jsstring
}.

(** The options [startClientWithAppServer] reads. *)
Record Options := mkOptions {
  serverId : Z;
  servers : list PeerServer;
  apiServer : ApiServer
}.

Record Socket := mkSocket {
  sk_options : Options;
  sk_encoding : jsstring;
  sk_server : option PeerServer
}.

Inductive WorkObject := NewWorkObject.

(** What the client does to the outside. *)
Inductive event :=
| EvConnect (socketId : Z) (p : Z) (h : jsstring)
| EvWrite (socketId : Z) (data : jsstring)
| EvListen (p : Z) (h : jsstring).

(** An object keyed by server ids.  The ids are array indices, which
    JavaScript enumerates in ascending order. *)
Fixpoint int_get {A : Type} (k : Z) (m : list (Z * A)) : option A :=
  match m with
  | [] => None
  | (k', v) :: r => if (k =? k')%Z then Some v else int_get k r
  end.

Fixpoint int_set {A : Type} (k : Z) (v : A) (m : list (Z * A)) : list (Z * A) :=
  match m with
  | [] => [(k, v)]
  | (k', v') :: r =>
      if (k =? k')%Z then (k, v) :: r
      else if (k <? k')%Z then (k, v) :: m
      else (k', v') :: int_set k v r
  end.

(** The module's globals, the fields of the [Client] and the trace of its
    effects. *)
Record State := mkState {
  gCurrentWork : list (jsstring * value);
  gPendingVirtualBlocks : list json;
  ids : list (Z * jsstring);
  socket : list (Z * Socket);
  workObjects : list WorkObject;
  trace : list event
}.

Definition initial : State := mkState [] [] [] [] [] [].

Definition set_gCurrentWork (w : list (jsstring * value)) (s : State) : State :=
  mkState w (gPendingVirtualBlocks s) (ids s) (socket s) (workObjects s) (trace s).

Definition set_gPendingVirtualBlocks (q : list json) (s : State) : State :=
  mkState (gCurrentWork s) q (ids s) (socket s) (workObjects s) (trace s).

Definition set_ids (m : list (Z * jsstring)) (s : State) : State :=
  mkState (gCurrentWork s) (gPendingVirtualBlocks s) m (socket s)
          (workObjects s) (trace s).

Definition set_socket (m : list (Z * Socket)) (s : State) : State :=
  mkState (gCurrentWork s) (gPendingVirtualBlocks s) (ids s) m
          (workObjects s) (trace s).

Definition set_workObjects (w : list WorkObject) (s : State) : State :=
  mkState (gCurrentWork s) (gPendingVirtualBlocks s) (ids s) (socket s) w
          (trace s).

Definition emit (e : event) (s : State) : State :=
  mkState (gCurrentWork s) (gPendingVirtualBlocks s) (ids s) (socket s)
          (workObjects s) (trace s ++ [e]).

(** ** Handlers run in a state monad with exceptions; what a handler did
    before it throws stays done. *)

Definition M (A : Type) : Type := State -> outcome A * State.

Definition ret {A : Type} (a : A) : M A := fun s => (Ret a, s).

Definition throw {A : Type} (e : error) : M A := fun s => (Throw e, s).

Definition bind {A B : Type} (c : M A) (k : A -> M B) : M B :=
  fun s =>
    match c s with
    | (Ret a, s') => k a s'
    | (Throw e, s') => (Throw e, s')
    end.

Definition lift {A : Type} (o : outcome A) : M A := fun s => (o, s).

Definition gets {A : Type} (f : State -> A) : M A := fun s => (Ret (f s), s).

Definition modify (f : State -> State) : M unit := fun s => (Ret tt, f s).

Declare Scope handler_scope.
Delimit Scope handler_scope with handler.
Notation "x <- c ;; k" := (bind c (fun x => k))
  (at level 61, c at next level, right associativity) : handler_scope.
Notation "c ;; k" := (bind c (fun _ => k))
  (at level 61, right associativity) : handler_scope.
Local Open Scope handler_scope.

(** ** The work store *)

Definition getCurrentWork : M value :=
  gets (fun s => flatten (lookup (js "work") (gCurrentWork s))).

Definition getCurrentWorkId : M value :=
  w <- getCurrentWork ;;
  lift (get_prop (stratumDeserialize w) (js "id")).

Definition getCurrentDifficulty : M value :=
  w <- getCurrentWork ;;
  r <- lift (get_prop (stratumDeserialize w) (js "result")) ;;
  lift (get_index r 2).

Definition getCurrentWorkSocketId : M value :=
  gets (fun s => flatten (lookup (js "socketId") (gCurrentWork s))).

(** The [work] field [setCurrentWork] stores. *)
Definition stored_work (work : value) : value :=
  match work with
  | Some j =>
      if jstype_eqb (typeof work) TObject
      then Some (JStr (JSON_stringify j))
      else work
  | None => None
  end.

Definition setCurrentWork (work : value) : M value :=
  modify (set_gCurrentWork [(js "work", stored_work work)]) ;;
  ret undefined.

(** ** Inbound data *)

Definition reframe (payload : jsstring) : jsstring :=
  chr "[" :: replace_braces (replace_newlines payload) ++ [chr "]"].

(** The [try] block of [onDataSetWork]: [None] when it throws and the
    [catch] returns, otherwise [data] and [extraData]. *)
Definition recover (payload : jsstring) : option (value * value) :=
  match JSON_parse (reframe payload) with
  | None => None
  | Some res =>
      match get_index (Some res) 0, get_index (Some res) 1 with
      | Ret r0, Ret r1 => Some (stratumDeserialize r0, stratumDeserialize r1)
      | _, _ => None
      end
  end.

Definition onDataSetWork (payload : jsstring) : M value :=
  let data := stratumDeserialize (Some (JStr payload)) in
  let extraData : value := Some JNull in
  match (if negb (truthy data) then recover payload
         else Some (data, extraData)) with
  | None => ret (Some JNull)
  | Some (data, extraData) =>
      r <- lift (get_prop data (js "result")) ;;
      if truthy r && jstype_eqb (typeof r) TObject
      then setCurrentWork data
      else ret undefined
  end.

(** ** The submission payload *)

Record Payload := mkPayload {
  p_id : Z;
  p_jsonrpc : jsstring;
  p_method : jsstring;
  p_params : list value;
  p_miner : jsstring;
  p_virtualBlocks : json;
  p_txs : list json
}.

Definition set_miner (m : jsstring) (p : Payload) : Payload :=
  mkPayload (p_id p) (p_jsonrpc p) (p_method p) (p_params p) m
            (p_virtualBlocks p) (p_txs p).

Definition set_txs (t : list json) (p : Payload) : Payload :=
  mkPayload (p_id p) (p_jsonrpc p) (p_method p) (p_params p) (p_miner p)
            (p_virtualBlocks p) t.

(** An [undefined] element of an array is serialized as [null]. *)
Definition or_null (v : value) : json :=
  match v with Some j => j | None => JNull end.

Definition payload_json (p : Payload) : json :=
  JObj [ (js "id", JNum (p_id p) 0);
         (js "jsonrpc", JStr (p_jsonrpc p));
         (js "method", JStr (p_method p));
         (js "params", JArr (map or_null (p_params p)));
         (js "miner", JStr (p_miner p));
         (js "virtualBlocks", p_virtualBlocks p);
         (js "txs", JArr (p_txs p)) ].

(** [for (i = 0; i < src.length; i++) dst[i] = src[i]]. *)
Fixpoint copy_into (src dst : list json) : list json :=
  match src with
  | [] => dst
  | x :: src' => x :: copy_into src' (tl dst)
  end.

(** [crypto.randomBytes(n).toString('hex')], from the bytes drawn. *)
Definition to_hex (bytes : list N) : jsstring :=
  flat_map (fun b => [hex_digit (b / 16); hex_digit (b mod 16)]) bytes.

Section Client.
(** The collaborators that are not part of the sources: the serializer of
    [libs/stratum] and the lambda derivation, which returns [undefined]
    or the sequence of virtual blocks of a payload. *)
Variable stratumSerialize : json -> jsstring.
Variable prepreVirtualBlocks : jsstring -> option (list json).

Definition socket_write (key : Z) (data : jsstring) : M unit :=
  sk <- gets (fun s => int_get key (socket s)) ;;
  match sk with
  | None => throw TypeError
  | Some _ => modify (emit (EvWrite key data))
  end.

(** The body of [for (var key in this.ids)]; the payload is mutated in
    place and handed on. *)
Fixpoint send_each (keys : list (Z * jsstring)) (result : Payload)
  : M Payload :=
  match keys with
  | [] => ret result
  | (key, id) :: rest =>
      let result := set_miner id result in
      pending <- gets gPendingVirtualBlocks ;;
      let result := set_txs (copy_into pending (p_txs result)) result in
      socket_write key (stratumSerialize (payload_json result)) ;;
      send_each rest result
  end.

(** Returns the payload as the call leaves it. *)
Definition sendVirtualBlocks (result : Payload) : M Payload :=
  keys <- gets ids ;;
  result <- send_each keys result ;;
  modify (set_gPendingVirtualBlocks []) ;;
  ret result.

Definition prepareToSendBlocks (blocks : json) (result : value) : M unit :=
  sHeaderHash <- lift (get_index result 0) ;;
  sSeedHash <- lift (get_index result 1) ;;
  sShareTarget <- lift (get_index result 2) ;;
  let result :=
    mkPayload 1 (js "2.0") (js "eth_submitWork")
              [sHeaderHash; sSeedHash; sShareTarget]
              [] blocks [] in
  sendVirtualBlocks result ;;
  ret tt.

Definition submitVirtualBlocks (vBlocks : option (list json)) (result : value)
  : M unit :=
  match vBlocks with
  | None => ret tt
  | Some l =>
      if (0 <? List.length l)%nat then
        modify (fun s =>
                  set_gPendingVirtualBlocks
                    (gPendingVirtualBlocks s ++ [JArr l]) s) ;;
        prepareToSendBlocks (JArr l) result
      else ret tt
  end.

Definition onData (payload : jsstring) : M unit :=
  let obj := stratumDeserialize (Some (JStr payload)) in
  if negb (truthy obj) then ret tt
  else
    id <- lift (get_prop obj (js "id")) ;;
    if jstype_eqb (typeof id) TUndefined then ret tt
    else
      result <- lift (get_prop obj (js "result")) ;;
      onDataSetWork payload ;;
      if jstype_eqb (typeof result) TObject then
        sHeaderHash <- lift (get_index result 0) ;;
        sSeedHash <- lift (get_index result 1) ;;
        sShareTarget <- lift (get_index result 2) ;;
        let blocks := prepreVirtualBlocks payload in
        submitVirtualBlocks blocks result
      else ret tt.

(** ** Starting the client *)

Definition connect (socketId : Z) (server : option PeerServer) : M unit :=
  match server with
  | None => throw TypeError
  | Some sv => modify (emit (EvConnect socketId (port sv) (host sv)))
  end.

(** [random] is what [crypto.randomBytes(32)] draws. *)
Definition startClientWithAppServer (random : list N) (updatedOptions : Options)
  : M unit :=
  modify (fun s => set_workObjects (workObjects s ++ [NewWorkObject]) s) ;;
  let id := serverId updatedOptions in
  let server :=
    if (0 <=? id)%Z then nth_error (servers updatedOptions) (Z.to_nat id)
    else None in
  (if (0 <=? id)%Z then
     modify (fun s => set_ids (int_set id (js "0x" ++ to_hex random) (ids s)) s) ;;
     modify (fun s =>
               set_socket
                 (int_set id (mkSocket updatedOptions (js "utf8") server)
                          (socket s)) s) ;;
     connect id server
   else ret tt) ;;
  modify (emit (EvListen (api_port (apiServer updatedOptions))
                         (api_host (apiServer updatedOptions)))).
End Client.

(** * Definitions for the statements *)

(** ** Effects *)

Definition emit_all (l : list event) (s : State) : State :=
  mkState (gCurrentWork s) (gPendingVirtualBlocks s) (ids s) (socket s)
          (workObjects s) (trace s ++ l).

(** The payload a connection is sent: the caller's, with that
    connection's token and the queue copied over its [txs]. *)
Definition stamp (pending : list json) (p : Payload) (token : jsstring)
  : Payload :=
  set_txs (copy_into pending (p_txs p)) (set_miner token p).

Definition write_of (stratumSerialize : json -> jsstring)
           (pending : list json) (p : Payload) (kt : Z * jsstring) : event :=
  EvWrite (fst kt) (stratumSerialize (payload_json (stamp pending p (snd kt)))).

(** Every tracked connection has its socket. *)
Definition connected (keys : list (Z * jsstring)) (s : State) : bool :=
  forallb (fun kt => match int_get (fst kt) (socket s) with
                     | Some _ => true
                     | None => false
                     end) keys.

(** The payload object after the loop. *)
Definition last_stamp (pending : list json) (p : Payload)
           (keys : list (Z * jsstring)) : Payload :=
  match rev keys with
  | [] => p
  | kt :: _ => stamp pending p (snd kt)
  end.

(** A handler that leaves the connections as they are. *)
Definition keeps_connections {A : Type} (c : M A) : Prop :=
  forall s, ids (snd (c s)) = ids s /\ socket (snd (c s)) = socket s.

(** The states the client reaches from its creation by starts and
    inbound data. *)
Inductive reachable (stratumSerialize : json -> jsstring)
          (prepreVirtualBlocks : jsstring -> option (list json))
  : State -> Prop :=
| reach_initial : reachable stratumSerialize prepreVirtualBlocks initial
| reach_start random o s :
    reachable stratumSerialize prepreVirtualBlocks s ->
    reachable stratumSerialize prepreVirtualBlocks
              (snd (startClientWithAppServer random o s))
| reach_data payload s :
    reachable stratumSerialize prepreVirtualBlocks s ->
    reachable stratumSerialize prepreVirtualBlocks
              (snd (onData stratumSerialize prepreVirtualBlocks payload s)).

(** ** Inbound data *)

Definition has_id (v : json) : bool :=
  match v with
  | JObj kvs => has_key (js "id") kvs
  | _ => false
  end.

(** What the specification asks of a start: every configured peer with a
    non-negative id has its connection and its token. *)
Definition every_peer_connected (o : Options) (s : State) : Prop :=
  forall sv, In sv (servers o) -> (0 <= server_id sv)%Z ->
    (exists k, In (EvConnect k (port sv) (host sv)) (trace s))
    /\ (exists token, int_get (server_id sv) (ids s) = Some token).

(** ** Serialized text *)

(** What may follow a value inside serialized text. *)
Definition delimited (rest : jsstring) : bool :=
  match rest with
  | [] => true
  | c :: _ => (c =? 44) || (c =? 93) || (c =? 125)
  end.

Definition no_digit_ahead (rest : jsstring) : bool :=
  match rest with
  | [] => true
  | c :: _ => match digit_of c with Some _ => false | None => true end
  end.

(** The digits of a number: not empty, and a leading zero only for zero. *)
Definition int_shape (d : Decimal.uint) : bool :=
  match d with
  | Decimal.Nil => false
  | Decimal.D0 Decimal.Nil => true
  | Decimal.D0 _ => false
  | _ => true
  end.

(** A serialized value starts with a character that is neither white
    space nor a closing bracket. *)
Definition opens_value (c : jschar) : bool :=
  negb (is_ws c) && negb (c =? 93) && negb (c =? 125) && negb (c =? 44).

Definition member_chars (kv : jsstring * json) : jsstring :=
  quote (fst kv) ++ 58 :: JSON_stringify (snd kv).

(** [pv] reads back [x] from any text of at most [n] characters. *)
Definition reads_back (pv : jsstring -> option (json * jsstring)) (n : nat)
           (x : json) : Prop :=
  forall tail, delimited tail = true ->
               (List.length (JSON_stringify x ++ tail) <= n)%nat ->
               pv (JSON_stringify x ++ tail) = Some (x, tail).

(** Induction over JSON values, with the hypothesis for every element. *)
Section JsonInduction.
Variable P : json -> Prop.
Hypothesis HNull : P JNull.
Hypothesis HBool : forall b, P (JBool b).
Hypothesis HNum : forall m e, P (JNum m e).
Hypothesis HStr : forall s, P (JStr s).
Hypothesis HArr : forall l, Forall P l -> P (JArr l).
Hypothesis HObj : forall kvs, Forall (fun kv => P (snd kv)) kvs -> P (JObj kvs).

Fixpoint json_induction (v : json) : P v :=
  match v with
  | JNull => HNull
  | JBool b => HBool b
  | JNum m e => HNum m e
  | JStr s => HStr s
  | JArr l =>
      HArr l ((fix go (l : list json) : Forall P l :=
                 match l with
                 | [] => Forall_nil P
                 | x :: r => Forall_cons x (json_induction x) (go r)
                 end) l)
  | JObj kvs =>
      HObj kvs
           ((fix go (kvs : list (jsstring * json))
               : Forall (fun kv => P (snd kv)) kvs :=
               match kvs with
               | [] => Forall_nil _
               | kv :: r =>
                   Forall_cons kv (json_induction (snd kv)) (go r)
               end) kvs)
  end.
End JsonInduction.

(** ** Sample data *)

(** JSON text, written with ['] for the double quote. *)
Definition text (s : string) : jsstring :=
  map (fun c => if c =? 39 then 34 else c) (js s).

(** Two work messages and the chunk that carries both. *)
Definition work_a : json :=
  JObj [ (js "id", JNum 1 0); (js "jsonrpc", JStr (js "2.0"));
         (js "result", JArr [JStr (js "0xAA"); JStr (js "0xBB"); JStr (js "0xCC")]) ].

Definition work_b : json :=
  JObj [ (js "id", JNum 2 0); (js "jsonrpc", JStr (js "2.0"));
         (js "result", JArr [JStr (js "0xDD"); JStr (js "0xEE"); JStr (js "0xFF")]) ].

Definition chunk_a : jsstring :=
  text "{'id':1,'jsonrpc':'2.0','result':['0xAA','0xBB','0xCC']}".

Definition chunk_b : jsstring :=
  text "{'id':2,'jsonrpc':'2.0','result':['0xDD','0xEE','0xFF']}".

Definition chunk_without_id : jsstring :=
  text "{'jsonrpc':'2.0','result':['0xAA','0xBB','0xCC']}".

Definition work_without_id : json :=
  JObj [ (js "jsonrpc", JStr (js "2.0"));
         (js "result", JArr [JStr (js "0xAA"); JStr (js "0xBB"); JStr (js "0xCC")]) ].


(** The payload [prepareToSendBlocks] builds for [work_result]. *)
Definition fresh_payload (blocks : json) : Payload :=
  mkPayload 1 (js "2.0") (js "eth_submitWork")
            [Some (JStr (js "0xAA")); Some (JStr (js "0xBB"));
             Some (JStr (js "0xCC"))]
            [] blocks [].

(** Instances of the collaborators, for running the handlers. *)
Definition line_serialize (j : json) : jsstring := JSON_stringify j ++ [10].

Definition one_block (payload : jsstring) : option (list json) :=
  Some [JStr (js "vb")].

Definition no_socket : Socket :=
  mkSocket (mkOptions 0 [] (mkApiServer 0 [])) (js "utf8") None.

(** A client with two connections and two batches waiting. *)
Definition two_connections : State :=
  mkState [] [JArr [JStr (js "b1")]; JArr [JStr (js "b2")]]
          [(0%Z, js "0x0a"); (1%Z, js "0x0b")]
          [(0%Z, no_socket); (1%Z, no_socket)] [] [].

Definition idle_connections : State :=
  set_gPendingVirtualBlocks [] two_connections.

Definition after_broadcast : State :=
  snd (sendVirtualBlocks line_serialize (fresh_payload JNull) two_connections).

Definition pool_a : PeerServer := mkPeerServer (js "a.pool") 8008 0.
Definition pool_b : PeerServer := mkPeerServer (js "b.pool") 8009 1.

(** Two configured peers, the first one selected. *)
Definition two_peers : Options :=
  mkOptions 0 [pool_a; pool_b] (mkApiServer 55752 (js "localhost")).

Definition drawn : list N := repeat 171 32.

(** * The rest of the client *)

(** ** Requests to the pool and the poll timer *)

(** A timer started by [setInterval]: the socket it polls and its delay in
    milliseconds. *)
Record Interval := mkInterval {
  iv_socket : Z;
  iv_delay : Z
}.

(** The client's state with the timers that are running. *)
Record Node := mkNode {
  node_state : State;
  intervals : list Interval
}.

(** The request [startSubmitInterval] sends at every tick. *)
Definition getWork_body : json :=
  JObj [ (js "id", JNum 1 0); (js "jsonrpc", JStr (js "2.0"));
         (js "method", JStr (js "eth_getWork")) ].

Section Requests.
Variable stratumSerialize : json -> jsstring.

(** [StratumSubscribe['STRATUM_PROTOCOL_ETHPROXY']], a constant of
    [libs/stratum]. *)
Variable subscribe : value.

(** [stratumDeserialize] never gives [undefined], so [or_null] only unwraps
    its result. *)
Definition submit (payload : value) (socketId : Z) : M unit :=
  let data := stratumDeserialize payload in
  socket_write socketId (stratumSerialize (or_null data)).

(** The function [startSubmitInterval] hands to [setInterval]. *)
Definition submit_tick (socketId : Z) : M unit :=
  submit (Some getWork_body) socketId.

Definition startSubmitInterval (socketId : Z) (n : Node) : Node :=
  mkNode (node_state n) (intervals n ++ [mkInterval socketId 2000]).

Definition onConnect (socketId : Z) (server : PeerServer) (n : Node)
  : outcome unit * Node :=
  match submit subscribe socketId (node_state n) with
  | (Ret _, s) => (Ret tt, startSubmitInterval socketId (mkNode s (intervals n)))
  | (Throw e, s) => (Throw e, mkNode s (intervals n))
  end.

(** [n] ticks of the timer of one socket, one after the other. *)
Fixpoint ticks (n : nat) (socketId : Z) : M unit :=
  match n with
  | O => ret tt
  | S n' => submit_tick socketId ;; ticks n' socketId
  end.

(** [this.client] is not a field of the [Client]. *)
Definition shutdown : M unit :=
  lift (get_prop undefined (js "end")) ;;
  lift (get_prop undefined (js "destroy")) ;;
  ret tt.
End Requests.

(** ** More definitions for the statements *)

(** A [result] the handlers index: an array or an object. *)
Definition structured (r : json) : bool :=
  match r with
  | JArr _ => true
  | JObj _ => true
  | _ => false
  end.

(** [r[i]] for such a result. *)
Definition element (r : json) (i : nat) : value :=
  match r with
  | JArr l => nth_error l i
  | JObj kvs => lookup (uint_chars (Nat.to_uint i)) kvs
  | _ => undefined
  end.

(** [obj.result] for a parsed message. *)
Definition result_of (v : json) : value :=
  match v with
  | JObj kvs => lookup (js "result") kvs
  | _ => undefined
  end.

(** The payload [prepareToSendBlocks] builds from [result] and [blocks]. *)
Definition submission (result : json) (blocks : json) : Payload :=
  mkPayload 1 (js "2.0") (js "eth_submitWork")
            [element result 0; element result 1; element result 2]
            [] blocks [].

Definition is_write (e : event) : bool :=
  match e with
  | EvWrite _ _ => true
  | _ => false
  end.

(** A handler that changes neither connections nor work objects and whose
    only effects are writes. *)
Definition only_writes {A : Type} (c : M A) : Prop :=
  forall s,
    ids (snd (c s)) = ids s
    /\ socket (snd (c s)) = socket s
    /\ workObjects (snd (c s)) = workObjects s
    /\ exists l, trace (snd (c s)) = trace s ++ l /\ forallb is_write l = true.

Fixpoint ascending (keys : list Z) : bool :=
  match keys with
  | [] => true
  | k :: rest =>
      match rest with
      | [] => true
      | k' :: _ => (k <? k')%Z && ascending rest
      end
  end.

(** One hexadecimal digit pair per byte, read back. *)
Fixpoint of_hex (s : jsstring) : option (list N) :=
  match s with
  | [] => Some []
  | h :: r =>
      match r with
      | [] => None
      | l :: r' =>
          match hex_val h, hex_val l, of_hex r' with
          | Some x, Some y, Some bytes => Some (x * 16 + y :: bytes)
          | _, _, _ => None
          end
      end
  end.

(** ** More sample data *)

Definition fields_a : list (jsstring * json) :=
  [ (js "id", JNum 1 0); (js "jsonrpc", JStr (js "2.0"));
    (js "result", JArr [JStr (js "0xAA"); JStr (js "0xBB"); JStr (js "0xCC")]) ].

Definition fields_b : list (jsstring * json) :=
  [ (js "id", JNum 2 0); (js "jsonrpc", JStr (js "2.0"));
    (js "result", JArr [JStr (js "0xDD"); JStr (js "0xEE"); JStr (js "0xFF")]) ].

Definition result_a : json :=
  JArr [JStr (js "0xAA"); JStr (js "0xBB"); JStr (js "0xCC")].



Definition chunk_null : jsstring := text "{'id':1,'result':null}".

Definition fields_null : list (jsstring * json) :=
  [ (js "id", JNum 1 0); (js "result", JNull) ].

(** A derivation that gives no block. *)
Definition no_block (payload : jsstring) : option (list json) := None.

(** Options that select no server, and options that select one that is not
    configured. *)
Definition none_selected : Options :=
  mkOptions (-1) [pool_a; pool_b] (mkApiServer 55752 (js "localhost")).

Definition beyond_servers : Options :=
  mkOptions 5 [pool_a; pool_b] (mkApiServer 55752 (js "localhost")).

Definition drawn_again : list N := repeat 205 32.

Definition started : State :=
  snd (startClientWithAppServer drawn two_peers initial).

(** Three tracked ids, the second without its socket. *)
Definition socket_missing : State :=
  mkState [] [JArr [JStr (js "b1")]]
          [(0%Z, js "0x0a"); (1%Z, js "0x0b"); (2%Z, js "0x0c")]
          [(0%Z, no_socket); (2%Z, no_socket)] [] [].

(** A payload that comes with three entries in its [txs]. *)
Definition used_payload : Payload :=
  set_txs [JStr (js "old0"); JStr (js "old1"); JStr (js "old2")]
          (fresh_payload JNull).

(** A stand-in for the subscribe message of [libs/stratum]. *)
Definition subscribe_body : value :=
  Some (JObj [ (js "id", JNum 1 0);
               (js "method", JStr (js "eth_submitLogin")) ]).

(** * Properties *)

(** ** Running handlers *)

Lemma emit_all_nil s : emit_all [] s = s.
Proof. destruct s; unfold emit_all; simpl. now rewrite app_nil_r. Qed.

Lemma emit_all_cons e l s : emit_all l (emit e s) = emit_all (e :: l) s.
Proof. unfold emit_all, emit; simpl. now rewrite <- app_assoc. Qed.

(** ** The broadcast loop *)

Section Broadcast.
Variable stratumSerialize : json -> jsstring.

Lemma copy_into_idem src : forall dst,
  copy_into src (copy_into src dst) = copy_into src dst.
Proof.
  induction src as [|x src IH]; intros dst; simpl; [reflexivity|].
  now rewrite IH.
Qed.

Lemma copy_into_fresh src : copy_into src [] = src.
Proof. induction src as [|x src IH]; simpl; [reflexivity|now rewrite IH]. Qed.


Lemma stamp_stamp pending p t1 t2 :
  stamp pending (stamp pending p t1) t2 = stamp pending p t2.
Proof.
  unfold stamp, set_txs, set_miner; simpl. now rewrite copy_into_idem.
Qed.

Lemma last_stamp_cons pending p kt keys :
  last_stamp pending (stamp pending p (snd kt)) keys
  = last_stamp pending p (kt :: keys).
Proof.
  unfold last_stamp; simpl.
  destruct (rev keys) as [|k r] eqn:E; simpl; [reflexivity|].
  apply stamp_stamp.
Qed.

Lemma connected_emit keys e s : connected keys (emit e s) = connected keys s.
Proof. reflexivity. Qed.

Lemma send_each_spec keys : forall p s,
  connected keys s = true ->
  send_each stratumSerialize keys p s
  = (Ret (last_stamp (gPendingVirtualBlocks s) p keys),
     emit_all
       (map (write_of stratumSerialize (gPendingVirtualBlocks s) p) keys) s).
Proof.
  induction keys as [|[k tok] keys IH]; intros p s Hc.
  - simpl. now rewrite emit_all_nil.
  - simpl in Hc. apply andb_true_iff in Hc as [Hk Hc].
    destruct (int_get k (socket s)) as [sk|] eqn:Ek; [|discriminate].
    cbn [send_each]. unfold bind at 1. unfold gets at 1.
    unfold bind at 1. unfold socket_write, bind at 1, gets at 1.
    rewrite Ek. unfold modify.
    rewrite IH by (now rewrite connected_emit).
    cbn [gPendingVirtualBlocks emit].
    change (set_txs (copy_into (gPendingVirtualBlocks s)
                               (p_txs (set_miner tok p)))
                    (set_miner tok p))
      with (stamp (gPendingVirtualBlocks s) p (snd (k, tok))).
    rewrite (last_stamp_cons _ p (k, tok)).
    rewrite emit_all_cons. f_equal. f_equal.
    cbn [map]. f_equal.
    apply map_ext. intros kt. unfold write_of.
    now rewrite stamp_stamp.
Qed.


Lemma sendVirtualBlocks_spec p s :
  connected (ids s) s = true ->
  sendVirtualBlocks stratumSerialize p s
  = (Ret (last_stamp (gPendingVirtualBlocks s) p (ids s)),
     set_gPendingVirtualBlocks []
       (emit_all
          (map (write_of stratumSerialize (gPendingVirtualBlocks s) p) (ids s))
          s)).
Proof.
  intros Hc. unfold sendVirtualBlocks.
  unfold bind at 1, gets at 1. unfold bind at 1.
  rewrite send_each_spec by assumption. reflexivity.
Qed.

End Broadcast.

(** ** [JSON.parse] inverts [JSON.stringify] *)

Lemma delimited_no_digit rest :
  delimited rest = true -> no_digit_ahead rest = true.
Proof.
  destruct rest as [|c rest]; simpl; [reflexivity|].
  intros H. apply orb_true_iff in H as [H|H];
    [apply orb_true_iff in H as [H|H]|]; apply N.eqb_eq in H; subst; reflexivity.
Qed.

Lemma span_digits_uint d rest :
  no_digit_ahead rest = true ->
  span_digits (uint_chars d ++ rest) = (d, rest).
Proof.
  intros Hr. induction d; simpl; try (rewrite IHd; reflexivity).
  destruct rest as [|c rest]; [reflexivity|].
  simpl in *. destruct (digit_of c); [discriminate|reflexivity].
Qed.

Lemma nzhead_shape d :
  Decimal.nzhead d = Decimal.Nil \/ int_shape (Decimal.nzhead d) = true.
Proof.
  induction d; simpl; auto.
Qed.

Lemma nzhead_not_zero d : Decimal.nzhead d <> Decimal.D0 Decimal.Nil.
Proof. induction d; simpl; congruence. Qed.

Lemma unorm_shape d : int_shape (Decimal.unorm d) = true.
Proof.
  unfold Decimal.unorm.
  destruct (nzhead_shape d) as [H|H]; [now rewrite H|].
  destruct (Decimal.nzhead d); try discriminate; assumption.
Qed.

Lemma to_uint_shape n : int_shape (N.to_uint n) = true.
Proof.
  rewrite <- (DecimalN.Unsigned.of_to n) at 1.
  rewrite DecimalN.Unsigned.to_of. apply unorm_shape.
Qed.

Lemma parse_int_uint d rest :
  int_shape d = true -> no_digit_ahead rest = true ->
  parse_int (uint_chars d ++ rest) = Some (d, rest).
Proof.
  intros Hd Hr. unfold parse_int. rewrite span_digits_uint by assumption.
  destruct d; try discriminate; try reflexivity.
  destruct d; try discriminate; reflexivity.
Qed.

Lemma uint_chars_head d :
  int_shape d = true ->
  exists c r, uint_chars d = c :: r /\ 48 <= c <= 57.
Proof.
  destruct d; simpl; try discriminate; intros _;
    eexists; eexists; (split; [reflexivity|lia]).
Qed.

Lemma Z_of_abs_N (neg : bool) (m : Z) :
  neg = (m <? 0)%Z ->
  (if neg then - Z.of_N (Z.abs_N m) else Z.of_N (Z.abs_N m))%Z = m.
Proof.
  intros ->. rewrite N2Z.inj_abs_N.
  destruct (Z.ltb_spec m 0); lia.
Qed.

Lemma parse_exp_digits_uint neg e rest :
  neg = (e <? 0)%Z -> no_digit_ahead rest = true ->
  parse_exp_digits neg (uint_chars (N.to_uint (Z.abs_N e)) ++ rest)
  = Some (e, rest).
Proof.
  intros Hn Hr. unfold parse_exp_digits.
  rewrite span_digits_uint by assumption.
  pose proof (to_uint_shape (Z.abs_N e)) as Hs.
  rewrite DecimalN.Unsigned.of_to, (Z_of_abs_N neg e Hn).
  destruct (N.to_uint (Z.abs_N e)); try discriminate; reflexivity.
Qed.

Lemma parse_exp_Z_chars e rest :
  e <> 0%Z -> no_digit_ahead rest = true ->
  parse_exp (101 :: Z_chars e ++ rest) = Some (e, rest).
Proof.
  intros He Hr. unfold parse_exp, Z_chars.
  change ((101 =? 101) || (101 =? 69)) with true. cbv iota.
  destruct (e <? 0)%Z eqn:Hneg.
  - simpl app. change (chr "-" =? 45) with true. cbv iota.
    now apply parse_exp_digits_uint.
  - simpl app.
    destruct (uint_chars_head _ (to_uint_shape (Z.abs_N e))) as (c & r & Hc & Hb).
    pose proof (parse_exp_digits_uint false e rest (eq_sym Hneg) Hr) as H.
    rewrite Hc in *. simpl app in *. cbv beta iota.
    replace (c =? 45) with false by (symmetry; apply N.eqb_neq; lia).
    replace (c =? 43) with false by (symmetry; apply N.eqb_neq; lia).
    exact H.
Qed.

Lemma parse_exp_none rest :
  delimited rest = true -> parse_exp rest = Some (0%Z, rest).
Proof.
  destruct rest as [|c rest]; [reflexivity|]. simpl. intros H.
  replace ((c =? 101) || (c =? 69)) with false; [reflexivity|].
  apply orb_true_iff in H as [H|H];
    [apply orb_true_iff in H as [H|H]|]; apply N.eqb_eq in H; subst; reflexivity.
Qed.

Lemma parse_unsigned_number neg m e rest :
  neg = (m <? 0)%Z -> delimited rest = true ->
  parse_unsigned neg
    (uint_chars (N.to_uint (Z.abs_N m))
       ++ (if (e =? 0)%Z then [] else chr "e" :: Z_chars e) ++ rest)
  = Some (JNum m e, rest).
Proof.
  intros Hn Hr. unfold parse_unsigned.
  pose proof (delimited_no_digit rest Hr) as Hd.
  assert (Htail : exists tl,
             (if (e =? 0)%Z then [] else chr "e" :: Z_chars e) ++ rest = tl
             /\ no_digit_ahead tl = true
             /\ parse_frac tl = Some (Decimal.Nil, tl)
             /\ parse_exp tl = Some (e, rest)).
  { destruct (Z.eqb_spec e 0) as [->|He].
    - exists rest. repeat split; try assumption.
      + destruct rest as [|c rest]; [reflexivity|]. simpl in *.
        replace (c =? 46) with false; [reflexivity|].
        apply orb_true_iff in Hr as [H|H];
          [apply orb_true_iff in H as [H|H]|]; apply N.eqb_eq in H; subst;
          reflexivity.
      + now apply parse_exp_none.
    - exists (101 :: Z_chars e ++ rest). repeat split.
      now apply parse_exp_Z_chars. }
  destruct Htail as (tl & -> & Hnd & Hf & Hx).
  rewrite parse_int_uint by (try apply to_uint_shape; assumption).
  rewrite Hf, Hx. rewrite DecimalFacts.app_nil_r.
  rewrite DecimalN.Unsigned.of_to, (Z_of_abs_N neg m Hn).
  simpl. now rewrite Z.sub_0_r.
Qed.

Lemma parse_number_chars m e rest :
  delimited rest = true ->
  parse_number (number_chars m e ++ rest) = Some (JNum m e, rest).
Proof.
  intros Hr. unfold number_chars, Z_chars.
  rewrite <- !app_assoc.
  destruct (m <? 0)%Z eqn:Hneg.
  - simpl. now apply parse_unsigned_number.
  - simpl app.
    destruct (uint_chars_head _ (to_uint_shape (Z.abs_N m))) as (c & r & Hc & Hb).
    pose proof (parse_unsigned_number false m e rest (eq_sym Hneg) Hr) as H.
    rewrite Hc in *. simpl app in *. unfold parse_number.
    cbv beta iota.
    replace (c =? 45) with false by (symmetry; apply N.eqb_neq; lia).
    exact H.
Qed.

Lemma number_chars_head m e :
  exists c r, number_chars m e = c :: r /\ (c = 45 \/ 48 <= c <= 57).
Proof.
  unfold number_chars, Z_chars. destruct (m <? 0)%Z.
  - simpl. eexists; eexists; split; [reflexivity|now left].
  - destruct (uint_chars_head _ (to_uint_shape (Z.abs_N m))) as (c & r & Hc & Hb).
    simpl. rewrite Hc. simpl. eexists; eexists; split; [reflexivity|now right].
Qed.

Ltac split_pos n p :=
  lazymatch n with
  | O => idtac
  | S ?k => destruct p as [p|p|]; [split_pos k p | split_pos k p | idtac]
  end.

Lemma parse_chars_escape c tail :
  parse_chars (escape_char c ++ tail) = cons_fst c (parse_chars tail).
Proof.
  destruct (N.ltb_spec c 32) as [Hlt|Hge].
  - destruct c as [|p]; [reflexivity|].
    split_pos 5%nat p; try reflexivity; lia.
  - unfold escape_char.
    destruct (N.eqb_spec c 34) as [->|H34]; [reflexivity|].
    destruct (N.eqb_spec c 92) as [->|H92]; [reflexivity|].
    replace (c =? 8) with false by (symmetry; apply N.eqb_neq; lia).
    replace (c =? 12) with false by (symmetry; apply N.eqb_neq; lia).
    replace (c =? 10) with false by (symmetry; apply N.eqb_neq; lia).
    replace (c =? 13) with false by (symmetry; apply N.eqb_neq; lia).
    replace (c =? 9) with false by (symmetry; apply N.eqb_neq; lia).
    replace (c <? 32) with false by (symmetry; apply N.ltb_ge; lia).
    simpl app. cbn [parse_chars].
    replace (c =? 34) with false by (symmetry; now apply N.eqb_neq).
    replace (c =? 92) with false by (symmetry; now apply N.eqb_neq).
    replace (c <? 32) with false by (symmetry; apply N.ltb_ge; lia).
    reflexivity.
Qed.

Lemma parse_chars_escaped s rest :
  parse_chars (flat_map escape_char s ++ 34 :: rest) = Some (s, rest).
Proof.
  induction s as [|c s IH]; [reflexivity|].
  simpl flat_map. rewrite <- app_assoc, parse_chars_escape, IH. reflexivity.
Qed.

Lemma quote_app s rest :
  quote s ++ rest = 34 :: flat_map escape_char s ++ 34 :: rest.
Proof. unfold quote. simpl. now rewrite <- app_assoc. Qed.

Lemma stringify_head v :
  exists c r, JSON_stringify v = c :: r /\ opens_value c = true.
Proof.
  destruct v as [|[|]|m e|s|l|kvs]; simpl;
    try (eexists; eexists; split; reflexivity).
  destruct (number_chars_head m e) as (c & r & -> & Hc).
  exists c, r. split; [reflexivity|].
  unfold opens_value, is_ws.
  destruct Hc as [->|Hc]; [reflexivity|].
  repeat match goal with
         | |- context [c =? ?k] =>
             replace (c =? k) with false by (symmetry; apply N.eqb_neq; lia)
         end.
  reflexivity.
Qed.

Lemma skip_ws_opens c r : opens_value c = true -> skip_ws (c :: r) = c :: r.
Proof.
  unfold opens_value. intros H. simpl.
  destruct (is_ws c); [discriminate|reflexivity].
Qed.

Lemma skip_ws_stringify v rest :
  skip_ws (JSON_stringify v ++ rest) = JSON_stringify v ++ rest.
Proof.
  destruct (stringify_head v) as (c & r & -> & Hc). now apply skip_ws_opens.
Qed.

Lemma stringify_length v : (1 <= List.length (JSON_stringify v))%nat.
Proof. destruct (stringify_head v) as (c & r & -> & _). simpl. lia. Qed.

Lemma jsstring_eqb_spec a : forall b, reflect (a = b) (jsstring_eqb a b).
Proof.
  induction a as [|x a IH]; intros [|y b]; simpl; try (constructor; congruence).
  destruct (N.eqb_spec x y) as [->|Hxy]; simpl.
  - destruct (IH b) as [->|Hab]; constructor; congruence.
  - constructor; congruence.
Qed.

Lemma jsstring_eqb_sym a b : jsstring_eqb a b = jsstring_eqb b a.
Proof.
  destruct (jsstring_eqb_spec a b), (jsstring_eqb_spec b a); congruence.
Qed.

Lemma has_key_app {A : Type} k (o1 o2 : list (jsstring * A)) :
  has_key k (o1 ++ o2) = has_key k o1 || has_key k o2.
Proof.
  unfold has_key. induction o1 as [|[k1 v1] o1 IH]; simpl; [reflexivity|].
  destruct (jsstring_eqb k k1); [reflexivity|exact IH].
Qed.

Lemma obj_set_fresh {A : Type} k (v : A) o :
  has_key k o = false -> obj_set k v o = o ++ [(k, v)].
Proof.
  unfold has_key. induction o as [|[k1 v1] o IH]; simpl; [reflexivity|].
  destruct (jsstring_eqb k k1); [discriminate|].
  intros H. now rewrite IH.
Qed.

Lemma unique_keys_middle {A : Type} k (v : A) o1 o2 :
  unique_keys (o1 ++ (k, v) :: o2) = true -> has_key k o1 = false.
Proof.
  induction o1 as [|[k1 v1] o1 IH]; simpl; [reflexivity|].
  intros H. apply andb_true_iff in H as [H1 H2].
  apply negb_true_iff in H1. rewrite has_key_app in H1.
  apply orb_false_iff in H1 as [_ H1].
  unfold has_key in *. simpl in *. rewrite jsstring_eqb_sym.
  destruct (jsstring_eqb k1 k); [discriminate|]. now apply IH.
Qed.

Lemma mk_object_from (ps : list (jsstring * json)) : forall acc,
  unique_keys (acc ++ ps) = true ->
  fold_left (fun o kv => obj_set (fst kv) (snd kv) o) ps acc = acc ++ ps.
Proof.
  induction ps as [|[k v] ps IH]; intros acc Hu; simpl.
  - now rewrite app_nil_r.
  - rewrite obj_set_fresh by (eapply unique_keys_middle; eassumption).
    rewrite IH; rewrite <- app_assoc; [reflexivity|exact Hu].
Qed.

Lemma mk_object_unique kvs : unique_keys kvs = true -> mk_object kvs = kvs.
Proof. intros H. unfold mk_object. now rewrite mk_object_from. Qed.

Section SequencesRoundTrip.
Variable pv : jsstring -> option (json * jsstring).
Variable n : nat.

Lemma parse_elements_stringify l : forall g rest,
  Forall (reads_back pv n) l -> l <> [] -> (List.length l <= g)%nat ->
  (List.length (join_comma (map JSON_stringify l) ++ 93%N :: rest) <= n)%nat ->
  parse_elements pv g (join_comma (map JSON_stringify l) ++ 93 :: rest)
  = Some (l, rest).
Proof.
  induction l as [|x l IH]; intros g rest Hpv Hne Hg Hn; [congruence|].
  inversion Hpv as [|? ? Hx Hl]; subst.
  destruct g as [|g]; [simpl in Hg; lia|].
  destruct l as [|y l].
  - simpl map in *. simpl join_comma in *. cbn [parse_elements].
    rewrite Hx by (try reflexivity; assumption).
    reflexivity.
  - change (join_comma (map JSON_stringify (x :: y :: l)))
      with (JSON_stringify x ++ 44 :: join_comma (map JSON_stringify (y :: l)))
      in *.
    rewrite <- app_assoc in *. simpl app in *. cbn [parse_elements].
    rewrite Hx; [|reflexivity|assumption].
    cbn [skip_ws is_ws]. simpl.
    rewrite length_app in Hn. simpl in Hn.
    rewrite (IH g rest); try assumption; try congruence; try reflexivity.
    + simpl in Hg. simpl. lia.
    + simpl in *. lia.
Qed.

Lemma parse_members_stringify kvs : forall g rest,
  Forall (fun kv => reads_back pv n (snd kv)) kvs -> kvs <> [] ->
  (List.length kvs <= g)%nat ->
  (List.length (join_comma (map member_chars kvs) ++ 125%N :: rest) <= n)%nat ->
  parse_members pv g (join_comma (map member_chars kvs) ++ 125 :: rest)
  = Some (kvs, rest).
Proof.
  induction kvs as [|[k x] kvs IH]; intros g rest Hpv Hne Hg Hn; [congruence|].
  inversion Hpv as [|? ? Hx Hl]; subst. simpl in Hx.
  destruct g as [|g]; [simpl in Hg; lia|].
  destruct kvs as [|y kvs].
  - simpl map in *. simpl join_comma in *. unfold member_chars in *.
    simpl fst in *. simpl snd in *.
    rewrite <- app_assoc in *. rewrite quote_app in *.
    simpl in Hn. rewrite length_app in Hn. simpl in Hn.
    simpl. rewrite parse_chars_escaped. simpl.
    rewrite Hx; [reflexivity|reflexivity|lia].
  - change (join_comma (map member_chars ((k, x) :: y :: kvs)))
      with (member_chars (k, x) ++ 44 :: join_comma (map member_chars (y :: kvs)))
      in *.
    unfold member_chars at 1. unfold member_chars at 1 in Hn.
    simpl fst in *. simpl snd in *.
    repeat rewrite <- app_assoc in *. rewrite quote_app in *.
    remember (join_comma (map member_chars (y :: kvs))) as more eqn:Hmore.
    simpl in Hn. rewrite length_app in Hn. simpl in Hn.
    rewrite length_app in Hn. simpl in Hn.
    simpl. rewrite parse_chars_escaped. simpl.
    rewrite Hx; [|reflexivity|simpl; rewrite length_app; simpl; lia].
    simpl. subst more.
    rewrite (IH g rest); try assumption; try congruence; try reflexivity.
    + simpl in Hg. simpl. lia.
    + lia.
Qed.
End SequencesRoundTrip.

Lemma parse_literal_number c r :
  c = 45 \/ 48 <= c <= 57 -> parse_literal (c :: r) = parse_number (c :: r).
Proof.
  intros Hc. unfold parse_literal.
  change (js "true") with [116; 114; 117; 101].
  change (js "false") with [102; 97; 108; 115; 101].
  change (js "null") with [110; 117; 108; 108].
  cbn [strip_prefix].
  replace (116 =? c) with false by (symmetry; apply N.eqb_neq; lia).
  replace (102 =? c) with false by (symmetry; apply N.eqb_neq; lia).
  replace (110 =? c) with false by (symmetry; apply N.eqb_neq; lia).
  reflexivity.
Qed.

Lemma join_comma_length (l : list jsstring) :
  Forall (fun x => (1 <= List.length x)%nat) l ->
  (List.length l <= List.length (join_comma l))%nat.
Proof.
  induction 1 as [|x l Hx Hl IH]; simpl; [lia|].
  destruct l as [|y l]; [simpl; lia|].
  rewrite length_app. simpl in *. lia.
Qed.

Lemma join_comma_head (l : list jsstring) c r x :
  x = c :: r -> exists r', join_comma (x :: l) = c :: r'.
Proof.
  intros ->. simpl. destruct l; eexists; reflexivity.
Qed.

Lemma Forall_reads_back fuel n (l : list json) :
  (n < fuel)%nat ->
  Forall (fun x =>
            forall fuel rest, delimited rest = true ->
              (List.length (JSON_stringify x ++ rest) < fuel)%nat ->
              parse_value fuel (JSON_stringify x ++ rest) = Some (x, rest)) l ->
  Forall (reads_back (parse_value fuel) n) l.
Proof.
  intros Hn H. eapply Forall_impl; [|exact H].
  intros x Hx tail Ht Hl. apply Hx; [assumption|lia].
Qed.

Lemma stringify_object kvs :
  JSON_stringify (JObj kvs) = 123 :: join_comma (map member_chars kvs) ++ [125].
Proof. reflexivity. Qed.

Lemma parse_value_stringify v :
  wf_json v = true ->
  forall fuel rest,
    delimited rest = true ->
    (List.length (JSON_stringify v ++ rest) < fuel)%nat ->
    parse_value fuel (JSON_stringify v ++ rest) = Some (v, rest).
Proof.
  induction v as [| b | m e | s | l IH | kvs IH] using json_induction;
    intros Hwf fuel rest Hr Hlen;
    (destruct fuel as [|f]; [inversion Hlen|]).
  - reflexivity.
  - destruct b; reflexivity.
  - cbn [parse_value JSON_stringify].
    rewrite (skip_ws_stringify (JNum m e)). cbn [JSON_stringify].
    destruct (number_chars_head m e) as (c & r & Hc & Hb).
    pose proof (parse_number_chars m e rest Hr) as Hp.
    rewrite Hc in *. simpl app in *. cbv beta iota.
    replace (c =? 123) with false by (symmetry; apply N.eqb_neq; lia).
    replace (c =? 91) with false by (symmetry; apply N.eqb_neq; lia).
    replace (c =? 34) with false by (symmetry; apply N.eqb_neq; lia).
    rewrite parse_literal_number by assumption. exact Hp.
  - cbn [JSON_stringify]. rewrite quote_app. simpl.
    now rewrite parse_chars_escaped.
  - cbn [JSON_stringify] in *. simpl in Hwf.
    destruct l as [|x l]; [reflexivity|].
    remember (x :: l) as xs eqn:Hxs.
    simpl app in *. rewrite <- app_assoc in *. simpl app in *.
    cbn [parse_value]. rewrite skip_ws_opens by reflexivity.
    change (91 =? 123) with false. change (91 =? 91) with true. cbv iota.
    destruct (stringify_head x) as (c & r & Hc & Ho).
    destruct (join_comma_head (map JSON_stringify l) c r _ Hc) as (r' & Hj).
    assert (Hjx : join_comma (map JSON_stringify xs) = c :: r')
      by (subst xs; exact Hj).
    rewrite Hjx. simpl app. rewrite skip_ws_opens by assumption.
    replace (c =? 93) with false.
    2:{ unfold opens_value in Ho. destruct (c =? 93); [|reflexivity].
        rewrite andb_false_r in Ho. discriminate. }
    change (c :: r' ++ 93 :: rest) with ((c :: r') ++ 93 :: rest).
    rewrite <- Hjx.
    rewrite (parse_elements_stringify (parse_value f)
               (List.length (join_comma (map JSON_stringify xs) ++ 93 :: rest))).
    + reflexivity.
    + apply Forall_reads_back;
        [apply (proj2 (Nat.succ_lt_mono _ _)); exact Hlen|].
      rewrite Forall_forall in *. intros y Hy. apply IH; [exact Hy|].
      rewrite forallb_forall in Hwf. now apply Hwf.
    + subst xs; congruence.
    + rewrite length_app.
      pose proof (join_comma_length (map JSON_stringify xs)) as Hjl.
      rewrite length_map in Hjl.
      assert (Forall (fun x => (1 <= List.length x)%nat) (map JSON_stringify xs)).
      { rewrite Forall_forall. intros z Hz. apply in_map_iff in Hz as (w & <- & _).
        apply stringify_length. }
      eapply Nat.le_trans; [exact (Hjl H)|apply Nat.le_add_r].
    + lia.
  - simpl in Hwf. apply andb_true_iff in Hwf as [Hu Hwf].
    destruct kvs as [|[k x] kvs]; [reflexivity|].
    remember ((k, x) :: kvs) as xs eqn:Hxs.
    rewrite stringify_object in *.
    simpl app in *. rewrite <- app_assoc in *. simpl app in *.
    cbn [parse_value]. rewrite skip_ws_opens by reflexivity.
    change (123 =? 123) with true. cbv iota.
    assert (Hjx : exists r', join_comma (map member_chars xs) = 34 :: r').
    { subst xs. simpl map. unfold member_chars at 1. simpl fst.
      unfold quote. simpl. destruct (map member_chars kvs); eexists; reflexivity. }
    destruct Hjx as (r' & Hjx).
    rewrite Hjx. simpl app. rewrite skip_ws_opens by reflexivity.
    change (34 =? 125) with false. cbv iota.
    change (34 :: r' ++ 125 :: rest) with ((34 :: r') ++ 125 :: rest).
    rewrite <- Hjx.
    rewrite (parse_members_stringify (parse_value f)
               (List.length (join_comma (map member_chars xs) ++ 125 :: rest))).
    + now rewrite mk_object_unique.
    + assert (Hn : (List.length (join_comma (map member_chars xs) ++ 125%N :: rest)
                    < f)%nat)
        by (apply (proj2 (Nat.succ_lt_mono _ _)); exact Hlen).
      rewrite Forall_forall in *. intros kv Hkv tail Ht Hl.
      apply IH; [exact Hkv| |assumption|lia].
      rewrite forallb_forall in Hwf. now apply Hwf.
    + subst xs; congruence.
    + rewrite length_app.
      pose proof (join_comma_length (map member_chars xs)) as Hjl.
      rewrite length_map in Hjl.
      assert (Forall (fun x => (1 <= List.length x)%nat) (map member_chars xs)).
      { rewrite Forall_forall. intros z Hz. apply in_map_iff in Hz as (w & <- & _).
        unfold member_chars, quote. simpl. lia. }
      eapply Nat.le_trans; [exact (Hjl H)|apply Nat.le_add_r].
    + lia.
Qed.

(** [JSON.parse(JSON.stringify(v))] is [v]. *)
Lemma JSON_parse_stringify v :
  wf_json v = true -> JSON_parse (JSON_stringify v) = Some v.
Proof.
  intros Hwf. unfold JSON_parse.
  pose proof (parse_value_stringify v Hwf (S (List.length (JSON_stringify v))) []
                                   eq_refl) as H.
  rewrite app_nil_r in H. rewrite H; [reflexivity|lia].
Qed.

(** ** What [JSON.parse] returns is well formed *)

Lemma has_key_cons {A : Type} k k1 (v1 : A) o :
  has_key k ((k1, v1) :: o) = jsstring_eqb k k1 || has_key k o.
Proof. unfold has_key. simpl. destruct (jsstring_eqb k k1); reflexivity. Qed.

Lemma has_key_obj_set {A : Type} k' k (v : A) o :
  has_key k' (obj_set k v o) = has_key k' o || jsstring_eqb k' k.
Proof.
  induction o as [|[k1 v1] o IH]; simpl.
  - rewrite has_key_cons. unfold has_key. simpl. now rewrite orb_false_r.
  - destruct (jsstring_eqb_spec k k1) as [->|Hk].
    + rewrite !has_key_cons. destruct (jsstring_eqb k' k1), (has_key k' o); reflexivity.
    + rewrite !has_key_cons, IH. now rewrite orb_assoc.
Qed.

Lemma unique_keys_obj_set {A : Type} k (v : A) o :
  unique_keys o = true -> unique_keys (obj_set k v o) = true.
Proof.
  induction o as [|[k1 v1] o IH]; simpl; [reflexivity|].
  intros H. apply andb_true_iff in H as [H1 H2].
  destruct (jsstring_eqb_spec k k1) as [->|Hk]; simpl.
  - now rewrite H1, H2.
  - rewrite has_key_obj_set, IH by assumption.
    apply negb_true_iff in H1. rewrite H1, jsstring_eqb_sym.
    destruct (jsstring_eqb_spec k k1); [contradiction|reflexivity].
Qed.

Lemma forallb_obj_set (P : json -> bool) k v o :
  forallb (fun kv => P (snd kv)) o = true -> P v = true ->
  forallb (fun kv => P (snd kv)) (obj_set k v o) = true.
Proof.
  intros Ho Hv. induction o as [|[k1 v1] o IH]; simpl in *.
  - now rewrite Hv.
  - apply andb_true_iff in Ho as [H1 H2].
    destruct (jsstring_eqb k k1); simpl.
    + now rewrite Hv, H2.
    + now rewrite H1, IH.
Qed.

Lemma mk_object_wf ps :
  forallb (fun kv => wf_json (snd kv)) ps = true ->
  wf_json (JObj (mk_object ps)) = true.
Proof.
  intros Hps. unfold mk_object.
  assert (H : forall acc,
             wf_json (JObj acc) = true ->
             wf_json (JObj (fold_left (fun o kv => obj_set (fst kv) (snd kv) o)
                                      ps acc)) = true).
  { induction ps as [|[k v] ps IH]; intros acc Hacc; simpl; [exact Hacc|].
    simpl in Hps. apply andb_true_iff in Hps as [Hv Hps].
    apply IH; [exact Hps|].
    simpl in *. apply andb_true_iff in Hacc as [Hu Hf].
    rewrite unique_keys_obj_set by assumption.
    now rewrite forallb_obj_set. }
  now apply H.
Qed.

Section SequencesWellFormed.
Variable pv : jsstring -> option (json * jsstring).
Hypothesis pv_wf : forall s v r, pv s = Some (v, r) -> wf_json v = true.

Lemma parse_elements_wf g : forall s vs r,
  parse_elements pv g s = Some (vs, r) -> forallb wf_json vs = true.
Proof.
  induction g as [|g IH]; intros s vs r H; [discriminate|].
  cbn [parse_elements] in H.
  destruct (pv s) as [[v r1]|] eqn:Hv; [|discriminate].
  apply pv_wf in Hv.
  destruct (skip_ws r1) as [|c r2]; [discriminate|].
  destruct (c =? 44).
  - destruct (parse_elements pv g r2) as [[vs' r3]|] eqn:Hrec; [|discriminate].
    injection H as <- <-. simpl. rewrite Hv. eapply IH; eassumption.
  - destruct (c =? 93); [|discriminate].
    injection H as <- <-. simpl. now rewrite Hv.
Qed.

Lemma parse_members_wf g : forall s ps r,
  parse_members pv g s = Some (ps, r) ->
  forallb (fun kv => wf_json (snd kv)) ps = true.
Proof.
  induction g as [|g IH]; intros s ps r H; [discriminate|].
  cbn [parse_members] in H.
  destruct (skip_ws s) as [|q r0]; [discriminate|].
  destruct (q =? 34); [|discriminate].
  destruct (parse_chars r0) as [[k r1]|]; [|discriminate].
  destruct (skip_ws r1) as [|c r2]; [discriminate|].
  destruct (c =? 58); [|discriminate].
  destruct (pv r2) as [[v r3]|] eqn:Hv; [|discriminate].
  apply pv_wf in Hv.
  destruct (skip_ws r3) as [|d r4]; [discriminate|].
  destruct (d =? 44).
  - destruct (parse_members pv g r4) as [[ps' r5]|] eqn:Hrec; [|discriminate].
    injection H as <- <-. simpl. rewrite Hv. eapply IH; eassumption.
  - destruct (d =? 125); [|discriminate].
    injection H as <- <-. simpl. now rewrite Hv.
Qed.
End SequencesWellFormed.

Lemma parse_literal_wf s v r : parse_literal s = Some (v, r) -> wf_json v = true.
Proof.
  unfold parse_literal, parse_number, parse_unsigned.
  intros H.
  repeat match type of H with
         | context [match ?x with _ => _ end] => destruct x
         end;
    try discriminate; injection H as <- _; reflexivity.
Qed.

Lemma parse_value_wf fuel : forall s v r,
  parse_value fuel s = Some (v, r) -> wf_json v = true.
Proof.
  induction fuel as [|f IH]; intros s v r H; [discriminate|].
  cbn [parse_value] in H.
  destruct (skip_ws s) as [|c r0]; [discriminate|].
  destruct (c =? 123).
  { destruct (skip_ws r0) as [|x r1]; [discriminate|].
    destruct (x =? 125); [injection H as <- _; reflexivity|].
    destruct (parse_members (parse_value f) (List.length r0) r0)
      as [[ps r2]|] eqn:Hm; [|discriminate].
    injection H as <- _. apply mk_object_wf.
    eapply parse_members_wf; [exact IH|exact Hm]. }
  destruct (c =? 91).
  { destruct (skip_ws r0) as [|x r1]; [discriminate|].
    destruct (x =? 93); [injection H as <- _; reflexivity|].
    destruct (parse_elements (parse_value f) (List.length r0) r0)
      as [[vs r2]|] eqn:He; [|discriminate].
    injection H as <- _. simpl.
    eapply parse_elements_wf; [exact IH|exact He]. }
  destruct (c =? 34).
  { destruct (parse_chars r0) as [[str r1]|]; [|discriminate].
    injection H as <- _. reflexivity. }
  eapply parse_literal_wf; exact H.
Qed.

Lemma JSON_parse_wf s v : JSON_parse s = Some v -> wf_json v = true.
Proof.
  unfold JSON_parse. intros H.
  destruct (parse_value (S (List.length s)) s) as [[v' r]|] eqn:Hp; [|discriminate].
  destruct (skip_ws r); [|discriminate].
  injection H as <-. eapply parse_value_wf; exact Hp.
Qed.

(** ** The work store *)

Lemma setCurrentWork_state work s :
  setCurrentWork work s
  = (Ret undefined, set_gCurrentWork [(js "work", stored_work work)] s).
Proof. reflexivity. Qed.


Lemma getCurrentWork_stored work s :
  getCurrentWork (set_gCurrentWork [(js "work", stored_work work)] s)
  = (Ret (stored_work work),
     set_gCurrentWork [(js "work", stored_work work)] s).
Proof. reflexivity. Qed.

(** Reading back the record of a structured message gives the message. *)
Lemma stratumDeserialize_stored kvs :
  wf_json (JObj kvs) = true ->
  stratumDeserialize (stored_work (Some (JObj kvs))) = Some (JObj kvs).
Proof.
  intros Hwf. unfold stored_work. cbn [typeof jstype_eqb stratumDeserialize].
  now rewrite JSON_parse_stringify.
Qed.

Lemma getCurrentWorkId_stored kvs s :
  wf_json (JObj kvs) = true ->
  getCurrentWorkId (snd (setCurrentWork (Some (JObj kvs)) s))
  = (Ret (lookup (js "id") kvs), snd (setCurrentWork (Some (JObj kvs)) s)).
Proof.
  intros Hwf. rewrite setCurrentWork_state. cbn [snd].
  unfold getCurrentWorkId, bind. rewrite getCurrentWork_stored.
  now rewrite stratumDeserialize_stored.
Qed.

Lemma getCurrentDifficulty_stored kvs s :
  wf_json (JObj kvs) = true ->
  getCurrentDifficulty (snd (setCurrentWork (Some (JObj kvs)) s))
  = (get_index (lookup (js "result") kvs) 2,
     snd (setCurrentWork (Some (JObj kvs)) s)).
Proof.
  intros Hwf. rewrite setCurrentWork_state. cbn [snd].
  unfold getCurrentDifficulty, bind. rewrite getCurrentWork_stored.
  rewrite stratumDeserialize_stored by assumption.
  unfold lift. cbn [get_prop].
  destruct (get_index (lookup (js "result") kvs) 2); reflexivity.
Qed.





(** C10: [setCurrentWork] replaces the global record by an object whose
    only field is [work], holding the JSON serialization of a structured
    argument and any other argument as it is; the record has no [socketId],
    so [getCurrentWorkSocketId] returns [undefined]. *)
Theorem setCurrentWork_single_field (work : value) (s : State) :
  let s' := snd (setCurrentWork work s) in
  gCurrentWork s' = [(js "work", stored_work work)]
  /\ map fst (gCurrentWork s') = [js "work"]
  /\ match work with
     | Some j =>
         if jstype_eqb (typeof work) TObject
         then stored_work work = Some (JStr (JSON_stringify j))
         else stored_work work = work
     | None => stored_work work = undefined
     end
  /\ getCurrentWorkSocketId s' = (Ret undefined, s').
Proof.
  intros s'. subst s'. repeat split.
  destruct work as [j|]; [|reflexivity].
  unfold stored_work. destruct (jstype_eqb (typeof (Some j)) TObject); reflexivity.
Qed.

(** ** Inbound data *)

Section Handlers.
Variable stratumSerialize : json -> jsstring.
Variable prepreVirtualBlocks : jsstring -> option (list json).

(** C7: a chunk that is not JSON, and is not JSON after the reframing
    either, leaves the whole state as it was (current work, pending queue
    and trace of writes) and the handlers return normally. *)
Theorem unparseable_chunk_is_dropped (payload : jsstring) (s : State) :
  JSON_parse payload = None ->
  JSON_parse (reframe payload) = None ->
  onData stratumSerialize prepreVirtualBlocks payload s = (Ret tt, s)
  /\ onDataSetWork payload s = (Ret (Some JNull), s).
Proof.
  intros Hp Hr. split.
  - unfold onData, stratumDeserialize. rewrite Hp. reflexivity.
  - unfold onDataSetWork, stratumDeserialize, recover.
    rewrite Hp, Hr. reflexivity.
Qed.

(** C8: a message whose parsed value has no [id] is dropped before
    anything is changed: the state, with the current work, the pending
    queue and the trace of writes, is as it was. *)
Theorem message_without_id_is_dropped (payload : jsstring) (v : json)
        (s : State) :
  JSON_parse payload = Some v ->
  has_id v = false ->
  onData stratumSerialize prepreVirtualBlocks payload s = (Ret tt, s).
Proof.
  intros Hp Hid. unfold onData, stratumDeserialize.
  rewrite Hp.
  destruct v as [|[|]|m e|str|l|kvs]; try reflexivity.
  - cbn [truthy negb]. destruct (negb (m =? 0)%Z); reflexivity.
  - cbn [truthy negb]. destruct str; reflexivity.
  - unfold has_id, has_key in Hid. cbn [truthy negb].
    unfold bind, lift. cbn [get_prop].
    destruct (lookup (js "id") kvs); [discriminate|reflexivity].
Qed.

(** C2, on the code: a chunk of two concatenated work messages is not one
    JSON value; the reframing reads both messages, in order, yet [onData]
    returns before anything is routed, and [onDataSetWork] stores the
    first message only. *)
Theorem concatenated_chunk_not_routed (s : State) :
  JSON_parse (chunk_a ++ chunk_b) = None
  /\ recover (chunk_a ++ chunk_b) = Some (Some work_a, Some work_b)
  /\ onData stratumSerialize prepreVirtualBlocks (chunk_a ++ chunk_b) s = (Ret tt, s)
  /\ onDataSetWork (chunk_a ++ chunk_b) s
     = (Ret undefined,
        set_gCurrentWork [(js "work", Some (JStr chunk_a))] s).
Proof.
  assert (Hp : JSON_parse (chunk_a ++ chunk_b) = None) by (vm_compute; reflexivity).
  assert (Hr : recover (chunk_a ++ chunk_b) = Some (Some work_a, Some work_b))
    by (vm_compute; reflexivity).
  split; [exact Hp|]. split; [exact Hr|]. split.
  - unfold onData, stratumDeserialize. rewrite Hp. reflexivity.
  - unfold onDataSetWork, stratumDeserialize. rewrite Hp.
    cbn [truthy negb]. rewrite Hr. reflexivity.
Qed.

(** ** The aggregator and the broadcaster *)



End Handlers.

Lemma unparseable_chunk_is_dropped_witness :
  JSON_parse (js "not json") = None
  /\ JSON_parse (reframe (js "not json")) = None
  /\ onData line_serialize one_block (js "not json") two_connections
     = (Ret tt, two_connections)
  /\ onDataSetWork (js "not json") two_connections
     = (Ret (Some JNull), two_connections).
Proof.
  split; [reflexivity|]. split; [reflexivity|].
  exact (unparseable_chunk_is_dropped line_serialize one_block (js "not json")
                                      two_connections eq_refl eq_refl).
Defined.

Lemma message_without_id_is_dropped_witness :
  JSON_parse chunk_without_id = Some work_without_id
  /\ has_id work_without_id = false
  /\ onData line_serialize one_block chunk_without_id two_connections
     = (Ret tt, two_connections).
Proof.
  split; [reflexivity|]. split; [reflexivity|].
  exact (message_without_id_is_dropped line_serialize one_block chunk_without_id
                                       work_without_id two_connections
                                       eq_refl eq_refl).
Defined.




(** The broadcast writes into the payload object it is given: the object
    of an earlier broadcast, sent again as it is, still carries the batches
    of that broadcast although the queue is empty. *)
Remark resent_payload_carries_old_txs :
  let sent := set_txs [JArr [JStr (js "b1")]; JArr [JStr (js "b2")]]
                      (set_miner (js "0x0b") (fresh_payload JNull)) in
  fst (sendVirtualBlocks line_serialize (fresh_payload JNull) two_connections)
  = Ret sent
  /\ gPendingVirtualBlocks after_broadcast = []
  /\ trace (snd (sendVirtualBlocks line_serialize sent after_broadcast))
     = trace after_broadcast
         ++ [ EvWrite 0 (line_serialize
                           (payload_json (set_miner (js "0x0a") sent)));
              EvWrite 1 (line_serialize
                           (payload_json (set_miner (js "0x0b") sent))) ].
Proof. repeat split. Qed.

(** ** Starting the client *)

(** C3 fails on the code: with two peers configured, a start connects the
    selected one and leaves the other without socket and token. *)
Lemma start_connects_one_peer_only :
  ~ every_peer_connected
      two_peers
      (snd (startClientWithAppServer drawn two_peers initial)).
Proof.
  intros H. destruct (H pool_b) as [[k Hk] _].
  - right; left; reflexivity.
  - discriminate.
  - vm_compute in Hk. destruct Hk as [Hk|[Hk|[]]]; discriminate.
Qed.

(** C3, amended: a start whose [serverId] is non-negative and selects a
    configured server opens exactly one connection, to that server's host
    and port, and generates one identity token, kept under [serverId];
    no other configured server is connected by this start. *)
Theorem start_connects_selected_server
        (random : list N) (o : Options) (sv : PeerServer) (s : State) :
  (0 <= serverId o)%Z ->
  nth_error (servers o) (Z.to_nat (serverId o)) = Some sv ->
  exists s',
    startClientWithAppServer random o s = (Ret tt, s')
    /\ ids s' = int_set (serverId o) (js "0x" ++ to_hex random) (ids s)
    /\ socket s'
       = int_set (serverId o) (mkSocket o (js "utf8") (Some sv)) (socket s)
    /\ trace s'
       = trace s ++ [ EvConnect (serverId o) (port sv) (host sv);
                      EvListen (api_port (apiServer o)) (api_host (apiServer o)) ].
Proof.
  intros Hid Hsv. unfold startClientWithAppServer.
  apply Z.leb_le in Hid. rewrite Hid, Hsv.
  eexists. split; [reflexivity|].
  cbn. rewrite <- app_assoc. repeat split.
Qed.

Lemma start_connects_selected_server_witness :
  (0 <= serverId two_peers)%Z
  /\ nth_error (servers two_peers) (Z.to_nat (serverId two_peers)) = Some pool_a
  /\ exists s',
       startClientWithAppServer drawn two_peers initial = (Ret tt, s')
       /\ ids s' = [(0%Z, js "0x" ++ to_hex drawn)]
       /\ trace s' = [ EvConnect 0 8008 (js "a.pool");
                       EvListen 55752 (js "localhost") ].
Proof.
  split; [simpl; lia|]. split; [reflexivity|].
  destruct (start_connects_selected_server drawn two_peers pool_a initial
              ltac:(simpl; lia) eq_refl) as (s' & Hrun & Hids & _ & Htrace).
  exists s'. split; [exact Hrun|]. split; [exact Hids|exact Htrace].
Defined.

(** ** A work message, end to end *)

Lemma onDataSetWork_work_message payload kvs r s :
  JSON_parse payload = Some (JObj kvs) ->
  lookup (js "result") kvs = Some (JArr r) ->
  onDataSetWork payload s
  = (Ret undefined,
     set_gCurrentWork
       [(js "work", Some (JStr (JSON_stringify (JObj kvs))))] s).
Proof.
  intros Hp Hr. unfold onDataSetWork, stratumDeserialize. rewrite Hp.
  cbn [truthy negb]. unfold bind, lift. cbn [get_prop]. rewrite Hr.
  reflexivity.
Qed.

(** The scenario of a work message arriving on a connection: the work is
    stored, the derived batch joins the queue, every connection is written
    the submission for that work, and the queue is left empty. *)
Lemma onData_work_message
      (stratumSerialize : json -> jsstring)
      (prepreVirtualBlocks : jsstring -> option (list json))
      payload kvs n headerHash seedHash shareTarget l s :
  JSON_parse payload = Some (JObj kvs) ->
  lookup (js "id") kvs = Some n ->
  lookup (js "result") kvs = Some (JArr [headerHash; seedHash; shareTarget]) ->
  prepreVirtualBlocks payload = Some l ->
  (0 < List.length l)%nat ->
  connected (ids s) s = true ->
  exists s',
    onData stratumSerialize prepreVirtualBlocks payload s = (Ret tt, s')
    /\ gCurrentWork s' = [(js "work", Some (JStr (JSON_stringify (JObj kvs))))]
    /\ gPendingVirtualBlocks s' = []
    /\ trace s'
       = trace s
           ++ map (fun kt =>
                     EvWrite (fst kt)
                       (stratumSerialize
                          (payload_json
                             (mkPayload 1 (js "2.0") (js "eth_submitWork")
                                        [Some headerHash; Some seedHash;
                                         Some shareTarget]
                                        (snd kt) (JArr l)
                                        (gPendingVirtualBlocks s ++ [JArr l])))))
                  (ids s)
    /\ getCurrentWorkId s' = (Ret (Some n), s')
    /\ getCurrentDifficulty s' = (Ret (Some shareTarget), s').
Proof.
  intros Hp Hid Hres Hblocks Hl Hc.
  pose proof (JSON_parse_wf _ _ Hp) as Hwf.
  assert (Hd : stratumDeserialize (Some (JStr payload)) = Some (JObj kvs))
    by (unfold stratumDeserialize; now rewrite Hp).
  unfold onData. rewrite Hd.
  cbn [truthy negb]. unfold bind at 1, lift at 1. cbn [get_prop]. rewrite Hid.
  replace (jstype_eqb (typeof (Some n)) TUndefined) with false
    by (destruct n; reflexivity).
  unfold bind at 1, lift at 1. rewrite Hres.
  unfold bind at 1.
  rewrite (onDataSetWork_work_message _ _ _ _ Hp Hres).
  cbn [typeof jstype_eqb]. unfold bind, lift. cbn [get_index nth_error].
  rewrite Hblocks. unfold submitVirtualBlocks.
  apply Nat.ltb_lt in Hl. rewrite Hl.
  unfold bind, modify, prepareToSendBlocks, bind, lift. cbn [get_index nth_error].
  rewrite sendVirtualBlocks_spec by exact Hc.
  eexists. split; [reflexivity|].
  split; [reflexivity|]. split; [reflexivity|]. split.
  - cbn. f_equal. apply map_ext. intros kt. unfold write_of, stamp.
    cbn. now rewrite copy_into_fresh.
  - match goal with
    | |- getCurrentWorkId ?st = _ /\ _ =>
        change st with
          (snd (setCurrentWork (Some (JObj kvs))
                  (set_gPendingVirtualBlocks []
                     (emit_all
                        (map (write_of stratumSerialize
                                (gPendingVirtualBlocks s ++ [JArr l])
                                (mkPayload 1 (js "2.0") (js "eth_submitWork")
                                   [Some headerHash; Some seedHash;
                                    Some shareTarget] [] (JArr l) []))
                             (ids s)) s))))
    end.
    split.
    + rewrite getCurrentWorkId_stored by assumption. now rewrite Hid.
    + rewrite getCurrentDifficulty_stored by assumption. now rewrite Hres.
Qed.

(** The scenario run on two connections: the message with id 1 and share
    target [0xCC] arrives and both connections are written its params. *)
Example work_message_on_two_connections :
  exists s',
    onData line_serialize one_block chunk_a idle_connections = (Ret tt, s')
    /\ getCurrentWorkId s' = (Ret (Some (JNum 1 0)), s')
    /\ getCurrentDifficulty s' = (Ret (Some (JStr (js "0xCC"))), s')
    /\ gPendingVirtualBlocks s' = []
    /\ trace s'
       = [ EvWrite 0
             (text "{'id':1,'jsonrpc':'2.0','method':'eth_submitWork','params':['0xAA','0xBB','0xCC'],'miner':'0x0a','virtualBlocks':['vb'],'txs':[['vb']]}"
                ++ [10]);
           EvWrite 1
             (text "{'id':1,'jsonrpc':'2.0','method':'eth_submitWork','params':['0xAA','0xBB','0xCC'],'miner':'0x0b','virtualBlocks':['vb'],'txs':[['vb']]}"
                ++ [10]) ].
Proof.
  eexists. split; [vm_compute; reflexivity|].
  repeat split; vm_compute; reflexivity.
Qed.

(** ** Every tracked connection has its socket *)

Lemma int_get_set_same {A : Type} k (v : A) m :
  int_get k (int_set k v m) = Some v.
Proof.
  induction m as [|[k1 v1] m IH]; simpl.
  - now rewrite Z.eqb_refl.
  - destruct (Z.eqb_spec k k1) as [->|Hk]; simpl.
    + now rewrite Z.eqb_refl.
    + destruct (k <? k1)%Z; simpl.
      * now rewrite Z.eqb_refl.
      * destruct (Z.eqb_spec k k1); [contradiction|exact IH].
Qed.

Lemma int_get_set_other {A : Type} k k' (v : A) m :
  k' <> k -> int_get k' (int_set k v m) = int_get k' m.
Proof.
  intros Hk. induction m as [|[k1 v1] m IH]; simpl.
  - destruct (Z.eqb_spec k' k); [contradiction|reflexivity].
  - destruct (Z.eqb_spec k k1) as [->|Hk1]; simpl.
    + destruct (Z.eqb_spec k' k1); [contradiction|reflexivity].
    + destruct (k <? k1)%Z; simpl.
      * destruct (Z.eqb_spec k' k); [contradiction|reflexivity].
      * destruct (k' =? k1)%Z; [reflexivity|exact IH].
Qed.

Lemma in_int_set {A : Type} k (v : A) m kt :
  In kt (int_set k v m) -> kt = (k, v) \/ In kt m.
Proof.
  induction m as [|[k1 v1] m IH]; simpl.
  - intros [<-|[]]. now left.
  - destruct (k =? k1)%Z; simpl.
    + intros [<-|H]; [now left|now right; right].
    + destruct (k <? k1)%Z; simpl.
      * intros [<-|[<-|H]]; [now left|now right; left|now right; right].
      * intros [<-|H]; [now right; left|].
        destruct (IH H) as [->|H']; [now left|now right; right].
Qed.

Lemma connected_int_set keys s s' k token sk :
  connected keys s = true ->
  socket s' = int_set k sk (socket s) ->
  connected (int_set k token keys) s' = true.
Proof.
  unfold connected. intros Hc Hs. rewrite forallb_forall in *.
  intros kt Hin. rewrite Hs.
  destruct (Z.eq_dec (fst kt) k) as [->|Hk].
  - now rewrite int_get_set_same.
  - rewrite int_get_set_other by assumption.
    destruct (in_int_set _ _ _ _ Hin) as [->|Hin']; [contradiction Hk; reflexivity|].
    now apply Hc.
Qed.

(** Starting the client keeps it so, whether or not the start returns. *)
Lemma start_keeps_connected random o s :
  connected (ids s) s = true ->
  connected (ids (snd (startClientWithAppServer random o s)))
            (snd (startClientWithAppServer random o s)) = true.
Proof.
  intros Hc. unfold startClientWithAppServer.
  destruct (0 <=? serverId o)%Z; [|exact Hc].
  set (server := nth_error (servers o) (Z.to_nat (serverId o))).
  pose proof (connected_int_set
                (ids s) s
                (set_socket (int_set (serverId o)
                                     (mkSocket o (js "utf8") server) (socket s)) s)
                (serverId o) (js "0x" ++ to_hex random) _ Hc eq_refl) as H.
  destruct server as [sv|]; exact H.
Qed.

Lemma keeps_ret {A : Type} (a : A) : keeps_connections (ret a).
Proof. intros s. now split. Qed.

Lemma keeps_lift {A : Type} (o : outcome A) : keeps_connections (lift o).
Proof. intros s. now split. Qed.

Lemma keeps_throw {A : Type} e : keeps_connections (@throw A e).
Proof. intros s. now split. Qed.

Lemma keeps_gets {A : Type} (f : State -> A) : keeps_connections (gets f).
Proof. intros s. now split. Qed.

Lemma keeps_bind {A B : Type} (c : M A) (k : A -> M B) :
  keeps_connections c -> (forall a, keeps_connections (k a)) ->
  keeps_connections (bind c k).
Proof.
  intros Hc Hk s. unfold bind. specialize (Hc s).
  destruct (c s) as [[a|e] s1]; simpl in *; [|exact Hc].
  destruct (Hk a s1) as [H1 H2]. destruct Hc as [H3 H4].
  split; congruence.
Qed.

Lemma keeps_modify (f : State -> State) :
  (forall s, ids (f s) = ids s /\ socket (f s) = socket s) ->
  keeps_connections (modify f).
Proof. intros H s. apply H. Qed.

Lemma keeps_setCurrentWork work : keeps_connections (setCurrentWork work).
Proof.
  unfold setCurrentWork. apply keeps_bind; [|intros; apply keeps_ret].
  apply keeps_modify. now split.
Qed.

Lemma keeps_onDataSetWork payload : keeps_connections (onDataSetWork payload).
Proof.
  unfold onDataSetWork. cbv zeta.
  match goal with
  | |- keeps_connections (match ?x with _ => _ end) =>
      destruct x as [[data extra]|]
  end; [|apply keeps_ret].
  apply keeps_bind; [apply keeps_lift|]. intros r.
  destruct (truthy r && jstype_eqb (typeof r) TObject);
    [apply keeps_setCurrentWork|apply keeps_ret].
Qed.

Section KeepsConnections.
Variable stratumSerialize : json -> jsstring.
Variable prepreVirtualBlocks : jsstring -> option (list json).

Lemma keeps_socket_write key data : keeps_connections (socket_write key data).
Proof.
  unfold socket_write. apply keeps_bind; [apply keeps_gets|]. intros [sk|].
  - apply keeps_modify. now split.
  - apply keeps_throw.
Qed.

Lemma keeps_send_each keys : forall p,
  keeps_connections (send_each stratumSerialize keys p).
Proof.
  induction keys as [|[k token] keys IH]; intros p; cbn [send_each].
  - apply keeps_ret.
  - apply keeps_bind; [apply keeps_gets|]. intros pending.
    apply keeps_bind; [apply keeps_socket_write|]. intros _. apply IH.
Qed.

Lemma keeps_sendVirtualBlocks p :
  keeps_connections (sendVirtualBlocks stratumSerialize p).
Proof.
  unfold sendVirtualBlocks. apply keeps_bind; [apply keeps_gets|]. intros keys.
  apply keeps_bind; [apply keeps_send_each|]. intros q.
  apply keeps_bind; [|intros; apply keeps_ret].
  apply keeps_modify. now split.
Qed.

Lemma keeps_submitVirtualBlocks vBlocks result :
  keeps_connections (submitVirtualBlocks stratumSerialize vBlocks result).
Proof.
  unfold submitVirtualBlocks. destruct vBlocks as [l|]; [|apply keeps_ret].
  destruct (0 <? List.length l)%nat; [|apply keeps_ret].
  apply keeps_bind; [apply keeps_modify; now split|]. intros _.
  unfold prepareToSendBlocks.
  repeat (apply keeps_bind; [apply keeps_lift|]; intros ?).
  apply keeps_bind; [apply keeps_sendVirtualBlocks|]. intros; apply keeps_ret.
Qed.

Lemma keeps_onData payload :
  keeps_connections (onData stratumSerialize prepreVirtualBlocks payload).
Proof.
  unfold onData.
  destruct (negb (truthy (stratumDeserialize (Some (JStr payload)))));
    [apply keeps_ret|].
  apply keeps_bind; [apply keeps_lift|]. intros id.
  destruct (jstype_eqb (typeof id) TUndefined); [apply keeps_ret|].
  apply keeps_bind; [apply keeps_lift|]. intros result.
  apply keeps_bind; [apply keeps_onDataSetWork|]. intros _.
  destruct (jstype_eqb (typeof result) TObject); [|apply keeps_ret].
  repeat (apply keeps_bind; [apply keeps_lift|]; intros ?).
  apply keeps_submitVirtualBlocks.
Qed.

Lemma reachable_connected s :
  reachable stratumSerialize prepreVirtualBlocks s -> connected (ids s) s = true.
Proof.
  induction 1 as [|random o s _ IH|payload s _ IH].
  - reflexivity.
  - now apply start_keeps_connected.
  - destruct (keeps_onData payload s) as [Hi Hs].
    unfold connected in *. now rewrite Hi, Hs.
Qed.
End KeepsConnections.

(** * Further properties of the client *)

(** ** What [onData] does with each kind of message *)

Lemma get_index_structured r i :
  structured r = true -> get_index (Some r) i = Ret (element r i).
Proof. destruct r; try discriminate; reflexivity. Qed.

Lemma structured_typeof r :
  structured r = true ->
  truthy (Some r) && jstype_eqb (typeof (Some r)) TObject = true.
Proof. destruct r; try discriminate; reflexivity. Qed.

Lemma stratumDeserialize_text payload v :
  JSON_parse payload = Some v ->
  stratumDeserialize (Some (JStr payload)) = Some v.
Proof. intros H. unfold stratumDeserialize. now rewrite H. Qed.

Section InboundCases.
Variable stratumSerialize : json -> jsstring.
Variable prepreVirtualBlocks : jsstring -> option (list json).

Lemma onData_without_id payload v s :
  JSON_parse payload = Some v ->
  has_id v = false ->
  onData stratumSerialize prepreVirtualBlocks payload s = (Ret tt, s).
Proof.
  intros Hp Hid. unfold onData.
  rewrite (stratumDeserialize_text _ _ Hp).
  destruct v as [|[|]|m e|str|l|kvs]; try reflexivity.
  - cbn [truthy negb]. destruct (negb (m =? 0)%Z); reflexivity.
  - cbn [truthy negb]. destruct str; reflexivity.
  - unfold has_id, has_key in Hid. cbn [truthy negb].
    unfold bind, lift. cbn [get_prop].
    destruct (lookup (js "id") kvs); [discriminate|reflexivity].
Qed.

(** The handler up to the point where the result is looked at, for a
    message that has an id. *)
Lemma onData_with_id payload kvs s :
  JSON_parse payload = Some (JObj kvs) ->
  has_key (js "id") kvs = true ->
  onData stratumSerialize prepreVirtualBlocks payload s
  = (onDataSetWork payload ;;
     if jstype_eqb (typeof (lookup (js "result") kvs)) TObject then
       sHeaderHash <- lift (get_index (lookup (js "result") kvs) 0) ;;
       sSeedHash <- lift (get_index (lookup (js "result") kvs) 1) ;;
       sShareTarget <- lift (get_index (lookup (js "result") kvs) 2) ;;
       submitVirtualBlocks stratumSerialize (prepreVirtualBlocks payload)
                           (lookup (js "result") kvs)
     else ret tt) s.
Proof.
  intros Hp Hid. unfold onData.
  rewrite (stratumDeserialize_text _ _ Hp).
  cbn [truthy negb]. unfold bind at 1, lift at 1. cbn [get_prop].
  unfold has_key in Hid.
  destruct (lookup (js "id") kvs) as [n|]; [|discriminate].
  replace (jstype_eqb (typeof (Some n)) TUndefined) with false
    by (destruct n; reflexivity).
  reflexivity.
Qed.

Lemma onDataSetWork_parsed payload kvs s :
  JSON_parse payload = Some (JObj kvs) ->
  onDataSetWork payload s
  = if truthy (lookup (js "result") kvs)
       && jstype_eqb (typeof (lookup (js "result") kvs)) TObject
    then (Ret undefined,
          set_gCurrentWork
            [(js "work", Some (JStr (JSON_stringify (JObj kvs))))] s)
    else (Ret undefined, s).
Proof.
  intros Hp. unfold onDataSetWork.
  rewrite (stratumDeserialize_text _ _ Hp).
  cbn [truthy negb]. unfold bind, lift. cbn [get_prop].
  destruct (truthy (lookup (js "result") kvs)
            && jstype_eqb (typeof (lookup (js "result") kvs)) TObject);
    reflexivity.
Qed.

Lemma onData_unstructured payload v s :
  JSON_parse payload = Some v ->
  jstype_eqb (typeof (result_of v)) TObject = false ->
  onData stratumSerialize prepreVirtualBlocks payload s = (Ret tt, s).
Proof.
  intros Hp Hr.
  destruct (has_id v) eqn:Hid; [|now apply (onData_without_id _ v)].
  destruct v as [| | | | |kvs]; try discriminate.
  cbn [has_id result_of] in *.
  rewrite (onData_with_id _ kvs) by assumption.
  unfold bind. rewrite (onDataSetWork_parsed _ kvs) by assumption.
  rewrite Hr, andb_false_r. reflexivity.
Qed.


Lemma onData_null_result payload kvs s :
  JSON_parse payload = Some (JObj kvs) ->
  has_key (js "id") kvs = true ->
  lookup (js "result") kvs = Some JNull ->
  onData stratumSerialize prepreVirtualBlocks payload s = (Throw TypeError, s).
Proof.
  intros Hp Hid Hr. rewrite (onData_with_id _ kvs) by assumption.
  unfold bind. rewrite (onDataSetWork_parsed _ kvs) by assumption.
  rewrite Hr. reflexivity.
Qed.

(** X2: a message with an [id] whose [result] is [null] makes [onData]
    throw a [TypeError] ([typeof null] is ['object'], and [result[0]] is
    read); nothing has been changed when it throws. *)
Theorem onData_null_result_throws (payload : jsstring)
        (kvs : list (jsstring * json)) (s : State) :
  JSON_parse payload = Some (JObj kvs) ->
  has_key (js "id") kvs = true ->
  lookup (js "result") kvs = Some JNull ->
  onData stratumSerialize prepreVirtualBlocks payload s = (Throw TypeError, s).
Proof.
  intros Hp Hid Hr. rewrite (onData_with_id _ kvs) by assumption.
  unfold bind. rewrite (onDataSetWork_parsed _ kvs) by assumption.
  now rewrite Hr.
Qed.

(** For a structured result the work is stored and the blocks of the
    payload are submitted. *)
Lemma onData_structured payload kvs r s :
  JSON_parse payload = Some (JObj kvs) ->
  has_key (js "id") kvs = true ->
  lookup (js "result") kvs = Some r ->
  structured r = true ->
  onData stratumSerialize prepreVirtualBlocks payload s
  = submitVirtualBlocks stratumSerialize (prepreVirtualBlocks payload) (Some r)
      (set_gCurrentWork [(js "work", Some (JStr (JSON_stringify (JObj kvs))))] s).
Proof.
  intros Hp Hid Hr Hs. rewrite (onData_with_id _ kvs) by assumption.
  unfold bind at 1. rewrite (onDataSetWork_parsed _ kvs) by assumption.
  rewrite Hr, (structured_typeof r Hs).
  replace (jstype_eqb (typeof (Some r)) TObject) with true
    by (destruct r; try discriminate; reflexivity).
  unfold bind, lift. rewrite !get_index_structured by assumption.
  reflexivity.
Qed.

(** X3: a work message for which the lambda derivation gives [undefined]
    or no block only replaces the stored work: nothing is queued and
    nothing is written. *)
Theorem onData_without_blocks_only_stores (payload : jsstring)
        (kvs : list (jsstring * json)) (r : json) (s : State) :
  JSON_parse payload = Some (JObj kvs) ->
  has_key (js "id") kvs = true ->
  lookup (js "result") kvs = Some r ->
  structured r = true ->
  prepreVirtualBlocks payload = None \/ prepreVirtualBlocks payload = Some [] ->
  onData stratumSerialize prepreVirtualBlocks payload s
  = (Ret tt,
     set_gCurrentWork [(js "work", Some (JStr (JSON_stringify (JObj kvs))))] s).
Proof.
  intros Hp Hid Hr Hs Hb. rewrite (onData_structured _ kvs r) by assumption.
  destruct Hb as [-> | ->]; reflexivity.
Qed.

(** What a submission leaves when every tracked connection has its socket. *)
Lemma submitVirtualBlocks_connected l r s :
  (0 < List.length l)%nat ->
  structured r = true ->
  connected (ids s) s = true ->
  submitVirtualBlocks stratumSerialize (Some l) (Some r) s
  = (Ret tt,
     set_gPendingVirtualBlocks []
       (emit_all
          (map (write_of stratumSerialize (gPendingVirtualBlocks s ++ [JArr l])
                         (submission r (JArr l)))
               (ids s))
          (set_gPendingVirtualBlocks (gPendingVirtualBlocks s ++ [JArr l]) s))).
Proof.
  intros Hl Hs Hc. unfold submitVirtualBlocks.
  apply Nat.ltb_lt in Hl. rewrite Hl.
  unfold bind at 1, modify at 1. unfold prepareToSendBlocks.
  unfold bind, lift. rewrite !get_index_structured by assumption.
  rewrite sendVirtualBlocks_spec by exact Hc. reflexivity.
Qed.

(** X4: a work message with an [id], a structured [result] and at least one
    derived block, arriving while every tracked connection has its socket:
    the work is stored, every connection is written the submission built
    from [result[0..2]] with the batch appended to whatever was queued, and
    the queue is left empty. *)
Theorem onData_work_message_broadcasts (payload : jsstring)
        (kvs : list (jsstring * json)) (r : json) (l : list json) (s : State) :
  JSON_parse payload = Some (JObj kvs) ->
  has_key (js "id") kvs = true ->
  lookup (js "result") kvs = Some r ->
  structured r = true ->
  prepreVirtualBlocks payload = Some l ->
  (0 < List.length l)%nat ->
  connected (ids s) s = true ->
  exists s',
    onData stratumSerialize prepreVirtualBlocks payload s = (Ret tt, s')
    /\ gCurrentWork s' = [(js "work", Some (JStr (JSON_stringify (JObj kvs))))]
    /\ gPendingVirtualBlocks s' = []
    /\ ids s' = ids s /\ socket s' = socket s
    /\ trace s'
       = trace s
           ++ map (fun kt =>
                     EvWrite (fst kt)
                       (stratumSerialize
                          (payload_json
                             (set_txs (gPendingVirtualBlocks s ++ [JArr l])
                                (set_miner (snd kt) (submission r (JArr l)))))))
                  (ids s).
Proof.
  intros Hp Hid Hr Hs Hb Hl Hc.
  rewrite (onData_structured _ kvs r) by assumption. rewrite Hb.
  rewrite submitVirtualBlocks_connected by assumption.
  eexists. split; [reflexivity|]. repeat split.
  cbn. f_equal. apply map_ext. intros kt. unfold write_of, stamp.
  cbn. now rewrite copy_into_fresh.
Qed.

(** X5: while every tracked connection has its socket, [onData] throws
    exactly for the messages that have an [id] and a [null] result; for
    every other chunk it returns. *)
Theorem onData_throws_only_for_null_result (payload : jsstring) (s : State) :
  connected (ids s) s = true ->
  (fst (onData stratumSerialize prepreVirtualBlocks payload s) = Throw TypeError
   <-> exists kvs,
         JSON_parse payload = Some (JObj kvs)
         /\ has_key (js "id") kvs = true
         /\ lookup (js "result") kvs = Some JNull)
  /\ (fst (onData stratumSerialize prepreVirtualBlocks payload s) = Throw TypeError
      \/ fst (onData stratumSerialize prepreVirtualBlocks payload s) = Ret tt).
Proof.
  intros Hc.
  assert (Hcases :
            (exists kvs,
                JSON_parse payload = Some (JObj kvs)
                /\ has_key (js "id") kvs = true
                /\ lookup (js "result") kvs = Some JNull)
            \/ fst (onData stratumSerialize prepreVirtualBlocks payload s) = Ret tt
               /\ ~ (exists kvs,
                        JSON_parse payload = Some (JObj kvs)
                        /\ has_key (js "id") kvs = true
                        /\ lookup (js "result") kvs = Some JNull)).
  { destruct (JSON_parse payload) as [v|] eqn:Hp.
    2:{ right. split; [|intros (kvs & H & _); discriminate].
        unfold onData, stratumDeserialize. now rewrite Hp. }
    destruct (has_id v) eqn:Hid.
    2:{ right. split.
        - now rewrite (onData_without_id _ v).
        - intros (kvs & H & Hk & _). injection H as ->. simpl in Hid. congruence. }
    destruct v as [| | | | |kvs]; try discriminate. cbn [has_id] in Hid.
    destruct (lookup (js "result") kvs) as [r|] eqn:Hr.
    2:{ right. split.
        - rewrite (onData_unstructured _ (JObj kvs));
            [reflexivity|assumption|]. cbn [result_of]. now rewrite Hr.
        - intros (kvs' & H & _ & Hn). injection H as <-. congruence. }
    destruct (structured r) eqn:Hs.
    - right. split.
      + rewrite (onData_structured _ kvs r) by assumption.
        destruct (prepreVirtualBlocks payload) as [[|x l]|]; try reflexivity.
        rewrite submitVirtualBlocks_connected; try assumption; [reflexivity|].
        simpl; lia.
      + intros (kvs' & H & _ & Hn). injection H as <-.
        rewrite Hn in Hr. injection Hr as <-. discriminate.
    - destruct r; try discriminate.
      + left. exists kvs. now repeat split.
      + right. split.
        * rewrite (onData_unstructured _ (JObj kvs));
            [reflexivity|assumption|]. cbn [result_of]. now rewrite Hr.
        * intros (kvs' & H & _ & Hn). injection H as <-. congruence.
      + right. split.
        * rewrite (onData_unstructured _ (JObj kvs));
            [reflexivity|assumption|]. cbn [result_of]. now rewrite Hr.
        * intros (kvs' & H & _ & Hn). injection H as <-. congruence.
      + right. split.
        * rewrite (onData_unstructured _ (JObj kvs));
            [reflexivity|assumption|]. cbn [result_of]. now rewrite Hr.
        * intros (kvs' & H & _ & Hn). injection H as <-. congruence. }
  destruct Hcases as [(kvs & Hp & Hid & Hr)|[Hret Hno]].
  - rewrite (onData_null_result _ kvs) by assumption.
    split; [|now left]. split; [|reflexivity]. intros _. now exists kvs.
  - split; [|now right]. split.
    + intros H. rewrite Hret in H. discriminate.
    + intros H. contradiction.
Qed.
End InboundCases.

(** ** Chunks that carry more than one message *)

(** An array or an object is read back whatever follows it. *)
Lemma parse_value_stringify_structured v :
  wf_json v = true -> structured v = true ->
  forall fuel rest,
    (List.length (JSON_stringify v ++ rest) < fuel)%nat ->
    parse_value fuel (JSON_stringify v ++ rest) = Some (v, rest).
Proof.
  intros Hwf Hs fuel rest Hlen.
  destruct fuel as [|f]; [inversion Hlen|].
  destruct v as [| | | |l|kvs]; try discriminate.
  - cbn [JSON_stringify] in *. simpl in Hwf.
    destruct l as [|x l]; [reflexivity|].
    remember (x :: l) as xs eqn:Hxs.
    simpl app in *. rewrite <- app_assoc in *. simpl app in *.
    cbn [parse_value]. rewrite skip_ws_opens by reflexivity.
    change (91 =? 123) with false. change (91 =? 91) with true. cbv iota.
    destruct (stringify_head x) as (c & r & Hc & Ho).
    destruct (join_comma_head (map JSON_stringify l) c r _ Hc) as (r' & Hj).
    assert (Hjx : join_comma (map JSON_stringify xs) = c :: r')
      by (subst xs; exact Hj).
    rewrite Hjx. simpl app. rewrite skip_ws_opens by assumption.
    replace (c =? 93) with false.
    2:{ unfold opens_value in Ho. destruct (c =? 93); [|reflexivity].
        rewrite andb_false_r in Ho. discriminate. }
    change (c :: r' ++ 93 :: rest) with ((c :: r') ++ 93 :: rest).
    rewrite <- Hjx.
    rewrite (parse_elements_stringify (parse_value f)
               (List.length (join_comma (map JSON_stringify xs) ++ 93 :: rest))).
    + reflexivity.
    + apply Forall_reads_back;
        [apply (proj2 (Nat.succ_lt_mono _ _)); exact Hlen|].
      rewrite Forall_forall. intros y Hy fuel' rest' Hd Hl'.
      apply parse_value_stringify; try assumption.
      rewrite forallb_forall in Hwf. now apply Hwf.
    + subst xs; congruence.
    + rewrite length_app.
      pose proof (join_comma_length (map JSON_stringify xs)) as Hjl.
      rewrite length_map in Hjl.
      assert (Forall (fun x => (1 <= List.length x)%nat) (map JSON_stringify xs)).
      { rewrite Forall_forall. intros z Hz. apply in_map_iff in Hz as (w & <- & _).
        apply stringify_length. }
      eapply Nat.le_trans; [exact (Hjl H)|apply Nat.le_add_r].
    + lia.
  - simpl in Hwf. apply andb_true_iff in Hwf as [Hu Hwf].
    destruct kvs as [|[k x] kvs]; [reflexivity|].
    remember ((k, x) :: kvs) as xs eqn:Hxs.
    rewrite stringify_object in *.
    simpl app in *. rewrite <- app_assoc in *. simpl app in *.
    cbn [parse_value]. rewrite skip_ws_opens by reflexivity.
    change (123 =? 123) with true. cbv iota.
    assert (Hjx : exists r', join_comma (map member_chars xs) = 34 :: r').
    { subst xs. simpl map. unfold member_chars at 1. simpl fst.
      unfold quote. simpl. destruct (map member_chars kvs); eexists; reflexivity. }
    destruct Hjx as (r' & Hjx).
    rewrite Hjx. simpl app. rewrite skip_ws_opens by reflexivity.
    change (34 =? 125) with false. cbv iota.
    change (34 :: r' ++ 125 :: rest) with ((34 :: r') ++ 125 :: rest).
    rewrite <- Hjx.
    rewrite (parse_members_stringify (parse_value f)
               (List.length (join_comma (map member_chars xs) ++ 125 :: rest))).
    + now rewrite mk_object_unique.
    + assert (Hn : (List.length (join_comma (map member_chars xs) ++ 125%N :: rest)
                    < f)%nat)
        by (apply (proj2 (Nat.succ_lt_mono _ _)); exact Hlen).
      rewrite Forall_forall. intros kv Hkv tail Ht Hl.
      apply parse_value_stringify; [|assumption|lia].
      rewrite forallb_forall in Hwf. now apply Hwf.
    + subst xs; congruence.
    + rewrite length_app.
      pose proof (join_comma_length (map member_chars xs)) as Hjl.
      rewrite length_map in Hjl.
      assert (Forall (fun x => (1 <= List.length x)%nat) (map member_chars xs)).
      { rewrite Forall_forall. intros z Hz. apply in_map_iff in Hz as (w & <- & _).
        unfold member_chars, quote. simpl. lia. }
      eapply Nat.le_trans; [exact (Hjl H)|apply Nat.le_add_r].
    + lia.
Qed.

(** Text after a serialized message makes the chunk a syntax error, unless
    it is white space. *)
Lemma JSON_parse_trailing v rest :
  wf_json v = true -> structured v = true ->
  JSON_parse (JSON_stringify v ++ rest)
  = match skip_ws rest with [] => Some v | _ :: _ => None end.
Proof.
  intros Hwf Hs. unfold JSON_parse.
  rewrite parse_value_stringify_structured; try assumption; [reflexivity|lia].
Qed.

(** Serialized text has no line feed, so the first replacement of the
    reframing leaves it alone. *)
Lemma uint_chars_no_lf d : Forall (fun c => c <> 10) (uint_chars d).
Proof. induction d; simpl; constructor; try assumption; lia. Qed.

Lemma Z_chars_no_lf z : Forall (fun c => c <> 10) (Z_chars z).
Proof.
  unfold Z_chars. apply Forall_app. split; [|apply uint_chars_no_lf].
  destruct (z <? 0)%Z; repeat constructor. discriminate.
Qed.

Lemma escape_char_no_lf c : Forall (fun c => c <> 10) (escape_char c).
Proof.
  destruct (N.ltb_spec c 32) as [Hlt|Hge].
  - destruct c as [|p]; [repeat constructor; discriminate|].
    split_pos 5%nat p; try lia; repeat constructor; discriminate.
  - unfold escape_char.
    destruct (N.eqb_spec c 34) as [->|H34]; [repeat constructor; discriminate|].
    destruct (N.eqb_spec c 92) as [->|H92]; [repeat constructor; discriminate|].
    replace (c =? 8) with false by (symmetry; apply N.eqb_neq; lia).
    replace (c =? 12) with false by (symmetry; apply N.eqb_neq; lia).
    replace (c =? 10) with false by (symmetry; apply N.eqb_neq; lia).
    replace (c =? 13) with false by (symmetry; apply N.eqb_neq; lia).
    replace (c =? 9) with false by (symmetry; apply N.eqb_neq; lia).
    replace (c <? 32) with false by (symmetry; apply N.ltb_ge; lia).
    repeat constructor. lia.
Qed.

Lemma quote_no_lf s : Forall (fun c => c <> 10) (quote s).
Proof.
  unfold quote. constructor; [discriminate|].
  apply Forall_app. split; [|repeat constructor; discriminate].
  induction s as [|c s IH]; simpl; [constructor|].
  apply Forall_app. split; [apply escape_char_no_lf|exact IH].
Qed.

Lemma join_comma_no_lf (l : list jsstring) :
  Forall (Forall (fun c => c <> 10)) l ->
  Forall (fun c => c <> 10) (join_comma l).
Proof.
  induction 1 as [|x l Hx Hl IH]; simpl; [constructor|].
  destruct l as [|y l]; [exact Hx|].
  apply Forall_app. split; [exact Hx|].
  constructor; [discriminate|exact IH].
Qed.

Lemma stringify_no_lf v : Forall (fun c => c <> 10) (JSON_stringify v).
Proof.
  induction v as [| b | m e | s | l IH | kvs IH] using json_induction.
  - repeat constructor; discriminate.
  - destruct b; repeat constructor; discriminate.
  - cbn [JSON_stringify]. unfold number_chars.
    apply Forall_app. split; [apply Z_chars_no_lf|].
    destruct (e =? 0)%Z; [constructor|].
    constructor; [discriminate|apply Z_chars_no_lf].
  - apply quote_no_lf.
  - cbn [JSON_stringify]. constructor; [discriminate|].
    apply Forall_app. split; [|repeat constructor; discriminate].
    apply join_comma_no_lf. rewrite Forall_forall in *.
    intros x Hx. apply in_map_iff in Hx as (y & <- & Hy). now apply IH.
  - rewrite stringify_object. constructor; [discriminate|].
    apply Forall_app. split; [|repeat constructor; discriminate].
    apply join_comma_no_lf. rewrite Forall_forall in *.
    intros x Hx. apply in_map_iff in Hx as (kv & <- & Hkv).
    unfold member_chars. apply Forall_app. split; [apply quote_no_lf|].
    constructor; [discriminate|]. now apply IH.
Qed.

Lemma replace_newlines_no_lf s :
  Forall (fun c => c <> 10) s -> replace_newlines s = s.
Proof.
  induction 1 as [|c s Hc Hs IH]; [reflexivity|].
  cbn [replace_newlines]. destruct s as [|x s']; [reflexivity|].
  replace (c =? 10) with false by (symmetry; now apply N.eqb_neq).
  cbn [andb]. now rewrite IH.
Qed.

Lemma replace_braces_cons c x r :
  replace_braces (c :: x :: r)
  = if (c =? 125) && (x =? 123)
    then 125 :: 44 :: 123 :: replace_braces r
    else c :: replace_braces (x :: r).
Proof. reflexivity. Qed.

(** Where two texts without [}{] meet on a [}] and a [{], the second
    replacement puts its one comma. *)
Lemma replace_braces_seam s1 : forall s2,
  replace_braces (s1 ++ [125]) = s1 ++ [125] ->
  replace_braces (123 :: s2) = 123 :: s2 ->
  replace_braces ((s1 ++ [125]) ++ 123 :: s2) = (s1 ++ [125]) ++ 44 :: 123 :: s2.
Proof.
  induction s1 as [|c s1 IH]; intros s2 H1 H2.
  - simpl app. rewrite replace_braces_cons.
    change ((125 =? 125) && (123 =? 123)) with true. cbv iota.
    f_equal. f_equal. f_equal.
    destruct s2 as [|y s2]; [reflexivity|].
    rewrite replace_braces_cons in H2.
    change (123 =? 125) with false in H2. cbn [andb] in H2.
    now injection H2.
  - assert (Hne : exists x r, s1 ++ [125] = x :: r)
      by (destruct s1; simpl; eauto).
    destruct Hne as (x & r & E).
    specialize (IH s2). simpl app in H1 |- *. rewrite E in *.
    simpl app. rewrite replace_braces_cons in H1 |- *.
    destruct ((c =? 125) && (x =? 123)) eqn:Hcx.
    + apply andb_true_iff in Hcx as [Hc Hx].
      apply N.eqb_eq in Hc, Hx. subst c x.
      injection H1 as H1. discriminate.
    + injection H1 as H1. f_equal. now apply IH.
Qed.

Lemma stringify_object_ends kvs :
  exists body, JSON_stringify (JObj kvs) = (123 :: body) ++ [125].
Proof. rewrite stringify_object. eexists. reflexivity. Qed.

Lemma reframe_two_objects ka kb :
  replace_braces (JSON_stringify (JObj ka)) = JSON_stringify (JObj ka) ->
  replace_braces (JSON_stringify (JObj kb)) = JSON_stringify (JObj kb) ->
  reframe (JSON_stringify (JObj ka) ++ JSON_stringify (JObj kb))
  = JSON_stringify (JArr [JObj ka; JObj kb]).
Proof.
  intros Ha Hb. unfold reframe.
  rewrite replace_newlines_no_lf
    by (apply Forall_app; split; apply stringify_no_lf).
  destruct (stringify_object_ends ka) as (ba & Ea).
  assert (Eb : exists s2, JSON_stringify (JObj kb) = 123 :: s2)
    by (rewrite stringify_object; eexists; reflexivity).
  destruct Eb as (s2 & Eb).
  cbn [JSON_stringify map join_comma].
  change (JSON_stringify (JObj ka)) with (JSON_stringify (JObj ka)) in *.
  rewrite <- !stringify_object.
  rewrite Ea, Eb in *.
  rewrite replace_braces_seam by assumption.
  rewrite <- !app_assoc. reflexivity.
Qed.

Section ConcatenatedChunks.
Variable stratumSerialize : json -> jsstring.
Variable prepreVirtualBlocks : jsstring -> option (list json).

(** X6: a chunk made of a serialized message followed by anything but
    white space (a second message, or the beginning of one) is dropped
    whole by [onData]: neither message is stored or submitted. *)
Theorem onData_drops_message_with_trailer (kvs : list (jsstring * json))
        (rest : jsstring) (s : State) :
  wf_json (JObj kvs) = true ->
  skip_ws rest <> [] ->
  JSON_parse (JSON_stringify (JObj kvs) ++ rest) = None
  /\ onData stratumSerialize prepreVirtualBlocks
            (JSON_stringify (JObj kvs) ++ rest) s
     = (Ret tt, s).
Proof.
  intros Hwf Hrest.
  assert (Hp : JSON_parse (JSON_stringify (JObj kvs) ++ rest) = None).
  { rewrite JSON_parse_trailing by (assumption || reflexivity).
    destruct (skip_ws rest); [congruence|reflexivity]. }
  split; [exact Hp|].
  unfold onData, stratumDeserialize. now rewrite Hp.
Qed.

(** X7: [onDataSetWork] given two serialized messages in one chunk
    recovers both, in order, and then handles the chunk as it handles the
    first message alone: the second is never looked at.  (The messages are
    such that no string in them holds [}{], which the reframing would
    alter.) *)
Theorem onDataSetWork_uses_first_of_two (ka kb : list (jsstring * json))
        (s : State) :
  wf_json (JObj ka) = true ->
  wf_json (JObj kb) = true ->
  replace_braces (JSON_stringify (JObj ka)) = JSON_stringify (JObj ka) ->
  replace_braces (JSON_stringify (JObj kb)) = JSON_stringify (JObj kb) ->
  recover (JSON_stringify (JObj ka) ++ JSON_stringify (JObj kb))
  = Some (Some (JObj ka), Some (JObj kb))
  /\ onDataSetWork (JSON_stringify (JObj ka) ++ JSON_stringify (JObj kb)) s
     = onDataSetWork (JSON_stringify (JObj ka)) s.
Proof.
  intros Hwa Hwb Ha Hb.
  assert (Hrec : recover (JSON_stringify (JObj ka) ++ JSON_stringify (JObj kb))
                 = Some (Some (JObj ka), Some (JObj kb))).
  { unfold recover. rewrite reframe_two_objects by assumption.
    rewrite JSON_parse_stringify; [reflexivity|].
    simpl. simpl in Hwa, Hwb. now rewrite Hwa, Hwb. }
  split; [exact Hrec|].
  assert (Hp : JSON_parse (JSON_stringify (JObj ka) ++ JSON_stringify (JObj kb))
               = None).
  { rewrite JSON_parse_trailing by (assumption || reflexivity).
    destruct (stringify_head (JObj kb)) as (c & r & E & Ho).
    rewrite E, skip_ws_opens by assumption. reflexivity. }
  rewrite (onDataSetWork_parsed (JSON_stringify (JObj ka)) ka)
    by now apply JSON_parse_stringify.
  unfold onDataSetWork, stratumDeserialize. rewrite Hp.
  cbn [truthy negb]. rewrite Hrec.
  unfold bind, lift. cbn [get_prop].
  destruct (truthy (lookup (js "result") ka)
            && jstype_eqb (typeof (lookup (js "result") ka)) TObject);
    reflexivity.
Qed.
End ConcatenatedChunks.

(** ** Starting the client: the edges *)

Section StartEdges.
Variable random : list N.
Variable o : Options.

(** The connections a start leaves, whether it returns or throws. *)
Lemma start_connections s :
  ids (snd (startClientWithAppServer random o s))
  = (if (0 <=? serverId o)%Z
     then int_set (serverId o) (js "0x" ++ to_hex random) (ids s)
     else ids s)
  /\ socket (snd (startClientWithAppServer random o s))
     = (if (0 <=? serverId o)%Z
        then int_set (serverId o)
                     (mkSocket o (js "utf8")
                               (nth_error (servers o) (Z.to_nat (serverId o))))
                     (socket s)
        else socket s).
Proof.
  unfold startClientWithAppServer.
  destruct (0 <=? serverId o)%Z; [|now split].
  destruct (nth_error (servers o) (Z.to_nat (serverId o))); now split.
Qed.

Lemma start_keeps_globals s :
  gCurrentWork (snd (startClientWithAppServer random o s)) = gCurrentWork s
  /\ gPendingVirtualBlocks (snd (startClientWithAppServer random o s))
     = gPendingVirtualBlocks s.
Proof.
  unfold startClientWithAppServer.
  destruct (0 <=? serverId o)%Z; [|now split].
  destruct (nth_error (servers o) (Z.to_nat (serverId o))); now split.
Qed.

(** X8: a start whose [serverId] is negative opens no connection and
    draws no token, but still adds a work object and starts the API
    server. *)
Theorem start_with_negative_serverId (s : State) :
  (serverId o < 0)%Z ->
  startClientWithAppServer random o s
  = (Ret tt,
     emit (EvListen (api_port (apiServer o)) (api_host (apiServer o)))
          (set_workObjects (workObjects s ++ [NewWorkObject]) s)).
Proof.
  intros H. unfold startClientWithAppServer.
  replace (0 <=? serverId o)%Z with false by (symmetry; apply Z.leb_gt; lia).
  reflexivity.
Qed.

(** X9: a start whose [serverId] selects no configured server throws a
    [TypeError] from [connect], after the token and the socket have been
    kept under that id; no connection is opened and the API server is
    never started. *)
Theorem start_with_missing_server (s : State) :
  (0 <= serverId o)%Z ->
  nth_error (servers o) (Z.to_nat (serverId o)) = None ->
  startClientWithAppServer random o s
  = (Throw TypeError,
     set_socket
       (int_set (serverId o) (mkSocket o (js "utf8") None) (socket s))
       (set_ids
          (int_set (serverId o) (js "0x" ++ to_hex random) (ids s))
          (set_workObjects (workObjects s ++ [NewWorkObject]) s))).
Proof.
  intros Hid Hsv. unfold startClientWithAppServer.
  apply Z.leb_le in Hid. rewrite Hid, Hsv. reflexivity.
Qed.

(** X10: a start touches the token and the socket of the selected id
    only: that id now has the token just drawn, every other id keeps its
    token and its socket, and the stored work and the queue are as
    before.  This holds whether the start returns or throws. *)
Theorem start_changes_selected_id_only (s : State) :
  (0 <= serverId o)%Z ->
  let s' := snd (startClientWithAppServer random o s) in
  int_get (serverId o) (ids s') = Some (js "0x" ++ to_hex random)
  /\ int_get (serverId o) (socket s')
     = Some (mkSocket o (js "utf8")
                      (nth_error (servers o) (Z.to_nat (serverId o))))
  /\ (forall j, j <> serverId o ->
        int_get j (ids s') = int_get j (ids s)
        /\ int_get j (socket s') = int_get j (socket s))
  /\ gCurrentWork s' = gCurrentWork s
  /\ gPendingVirtualBlocks s' = gPendingVirtualBlocks s.
Proof.
  intros Hid s'. subst s'.
  destruct (start_connections s) as [Hi Hs].
  destruct (start_keeps_globals s) as [Hw Hq].
  apply Z.leb_le in Hid. rewrite Hid in Hi, Hs.
  rewrite Hi, Hs, Hw, Hq.
  repeat split; try apply int_get_set_same;
    now apply int_get_set_other.
Qed.
End StartEdges.

(** ** The tracked connections *)


Lemma ascending_cons k l :
  ascending (k :: l) = true ->
  ascending l = true /\ Forall (fun j => (k < j)%Z) l.
Proof.
  revert k. induction l as [|k1 l IH]; intros k H; [now split|].
  cbn [ascending] in H. apply andb_true_iff in H as [Hk Hl].
  apply Z.ltb_lt in Hk. destruct (IH k1 Hl) as [_ Hall].
  split; [exact Hl|]. constructor; [exact Hk|].
  eapply Forall_impl; [|exact Hall]. intros j Hj. simpl in Hj. lia.
Qed.



Lemma int_set_length_present {A : Type} k (v : A) m :
  ascending (map fst m) = true ->
  int_get k m <> None ->
  List.length (int_set k v m) = List.length m.
Proof.
  induction m as [|[k1 v1] m IH]; intros Ha Hk; [now contradiction Hk|].
  cbn [int_set int_get] in *.
  destruct (Z.eqb_spec k k1) as [->|Hne]; [reflexivity|].
  cbn [map fst] in Ha. apply ascending_cons in Ha as [Ha Hall].
  destruct (Z.ltb_spec k k1) as [Hlt|Hge].
  - exfalso. apply Hk. clear IH Ha Hk.
    induction m as [|[k2 v2] m IHm]; [reflexivity|].
    inversion Hall as [|? ? H2 Hrest]; subst. simpl in H2.
    cbn [int_get]. destruct (Z.eqb_spec k k2); [lia|]. now apply IHm.
  - simpl. f_equal. now apply IH.
Qed.

Section TrackedConnections.
Variable stratumSerialize : json -> jsstring.
Variable prepreVirtualBlocks : jsstring -> option (list json).


(** X12: a start on an id that is already tracked replaces its token and
    its socket: the number of tracked connections stays the same although
    one more connection is opened. *)
Theorem restart_replaces_connection (random : list N) (o : Options)
        (sv : PeerServer) (s : State) :
  (0 <= serverId o)%Z ->
  nth_error (servers o) (Z.to_nat (serverId o)) = Some sv ->
  ascending (map fst (ids s)) = true ->
  int_get (serverId o) (ids s) <> None ->
  let s' := snd (startClientWithAppServer random o s) in
  List.length (ids s') = List.length (ids s)
  /\ int_get (serverId o) (ids s') = Some (js "0x" ++ to_hex random)
  /\ trace s'
     = trace s ++ [ EvConnect (serverId o) (port sv) (host sv);
                    EvListen (api_port (apiServer o)) (api_host (apiServer o)) ].
Proof.
  intros Hid Hsv Ha Hk s'. subst s'.
  destruct (start_connections random o s) as [Hi _].
  pose proof Hid as Hid'. apply Z.leb_le in Hid'. rewrite Hid' in Hi.
  rewrite Hi. split; [now apply int_set_length_present|].
  split; [apply int_get_set_same|].
  unfold startClientWithAppServer. rewrite Hid', Hsv.
  cbn. now rewrite <- app_assoc.
Qed.
End TrackedConnections.

(** ** The queue and the broadcast: the edges *)

Lemma copy_into_skipn src : forall dst,
  copy_into src dst = src ++ skipn (List.length src) dst.
Proof.
  induction src as [|x src IH]; intros dst; [reflexivity|].
  cbn [copy_into List.length app]. rewrite IH.
  destruct dst as [|y dst]; cbn [tl skipn]; [now rewrite skipn_nil|reflexivity].
Qed.

Lemma set_gPendingVirtualBlocks_twice q1 q2 s :
  set_gPendingVirtualBlocks q1 (set_gPendingVirtualBlocks q2 s)
  = set_gPendingVirtualBlocks q1 s.
Proof. reflexivity. Qed.

Section QueueEdges.
Variable stratumSerialize : json -> jsstring.
Variable prepreVirtualBlocks : jsstring -> option (list json).

(** X13: whatever [txs] the payload comes with, each connection is sent
    the queue followed by the entries of that [txs] from the queue's
    length on: the loop overwrites the first entries and never shortens
    the array. *)
Theorem sendVirtualBlocks_overwrites_txs_prefix (p : Payload) (s : State) :
  connected (ids s) s = true ->
  let txs := gPendingVirtualBlocks s
               ++ skipn (List.length (gPendingVirtualBlocks s)) (p_txs p) in
  exists p' s',
    sendVirtualBlocks stratumSerialize p s = (Ret p', s')
    /\ trace s'
       = trace s
           ++ map (fun kt =>
                     EvWrite (fst kt)
                             (stratumSerialize
                                (payload_json
                                   (set_txs txs (set_miner (snd kt) p)))))
                  (ids s)
    /\ (ids s <> [] -> p_txs p' = txs)
    /\ gPendingVirtualBlocks s' = [].
Proof.
  intros Hc txs. rewrite sendVirtualBlocks_spec by assumption.
  eexists; eexists. split; [reflexivity|]. split; [|split; [|reflexivity]].
  - cbn [trace set_gPendingVirtualBlocks emit_all]. f_equal.
    apply map_ext. intros kt. unfold write_of, stamp. cbn [p_txs set_miner].
    now rewrite copy_into_skipn.
  - intros Hne. unfold last_stamp.
    destruct (rev (ids s)) as [|kt r] eqn:E.
    + apply (f_equal (@rev _)) in E. rewrite rev_involutive in E.
      simpl in E. contradiction.
    + unfold stamp. cbn [p_txs set_txs set_miner]. apply copy_into_skipn.
Qed.

(** X14: with no tracked connection a submitted batch is lost: nothing is
    written, and the queue, with whatever it held, is emptied. *)
Theorem submitVirtualBlocks_without_connection_drops (l : list json)
        (r : json) (s : State) :
  (0 < List.length l)%nat ->
  structured r = true ->
  ids s = [] ->
  submitVirtualBlocks stratumSerialize (Some l) (Some r) s
  = (Ret tt, set_gPendingVirtualBlocks [] s).
Proof.
  intros Hl Hs Hi.
  rewrite submitVirtualBlocks_connected; try assumption.
  - rewrite Hi. cbn [map]. rewrite emit_all_nil. reflexivity.
  - now rewrite Hi.
Qed.

(** X15: a batch submitted with a result that cannot be indexed ([null]
    or [undefined]) is queued before [prepareToSendBlocks] throws, and
    stays queued; the next submission sends it first, together with its
    own batch, and empties the queue. *)
Theorem failed_submission_is_sent_with_the_next (l1 l2 : list json)
        (bad : value) (r : json) (s : State) :
  (0 < List.length l1)%nat ->
  (0 < List.length l2)%nat ->
  get_index bad 0 = Throw TypeError ->
  structured r = true ->
  connected (ids s) s = true ->
  let s1 := set_gPendingVirtualBlocks
              (gPendingVirtualBlocks s ++ [JArr l1]) s in
  submitVirtualBlocks stratumSerialize (Some l1) bad s = (Throw TypeError, s1)
  /\ exists s2,
       submitVirtualBlocks stratumSerialize (Some l2) (Some r) s1 = (Ret tt, s2)
       /\ gPendingVirtualBlocks s2 = []
       /\ trace s2
          = trace s
              ++ map (fun kt =>
                        EvWrite (fst kt)
                          (stratumSerialize
                             (payload_json
                                (set_txs
                                   (gPendingVirtualBlocks s
                                      ++ [JArr l1; JArr l2])
                                   (set_miner (snd kt)
                                              (submission r (JArr l2)))))))
                     (ids s).
Proof.
  intros H1 H2 Hbad Hs Hc s1. split.
  - unfold submitVirtualBlocks. apply Nat.ltb_lt in H1. rewrite H1.
    unfold bind at 1, modify at 1. unfold prepareToSendBlocks.
    unfold bind, lift. rewrite Hbad. reflexivity.
  - rewrite submitVirtualBlocks_connected by assumption.
    eexists. split; [reflexivity|]. split; [reflexivity|].
    cbn. f_equal. apply map_ext. intros kt. unfold write_of, stamp.
    cbn. rewrite copy_into_fresh, <- app_assoc. reflexivity.
Qed.

(** The loop up to a connection that has no socket. *)
Lemma send_each_missing_socket before : forall k token after p s,
  connected before s = true ->
  int_get k (socket s) = None ->
  send_each stratumSerialize (before ++ (k, token) :: after) p s
  = (Throw TypeError,
     emit_all (map (write_of stratumSerialize (gPendingVirtualBlocks s) p)
                   before) s).
Proof.
  induction before as [|[k0 t0] before IH]; intros k token after p s Hc Hk.
  - cbn [app send_each map]. unfold bind at 1, gets at 1.
    unfold bind at 1. unfold socket_write, bind at 1, gets at 1.
    rewrite Hk. unfold throw. now rewrite emit_all_nil.
  - simpl in Hc. apply andb_true_iff in Hc as [H0 Hc].
    destruct (int_get k0 (socket s)) as [sk|] eqn:E0; [|discriminate].
    cbn [app send_each]. unfold bind at 1, gets at 1.
    unfold bind at 1. unfold socket_write, bind at 1, gets at 1.
    rewrite E0. unfold modify.
    rewrite IH by assumption.
    cbn [gPendingVirtualBlocks emit].
    rewrite emit_all_cons. f_equal. f_equal. cbn [map]. f_equal.
    apply map_ext. intros kt. unfold write_of.
    change (set_txs (copy_into (gPendingVirtualBlocks s)
                               (p_txs (set_miner t0 p)))
                    (set_miner t0 p))
      with (stamp (gPendingVirtualBlocks s) p t0).
    now rewrite stamp_stamp.
Qed.

(** X16: when a tracked id has no socket, the broadcast writes to the
    connections before it, then throws a [TypeError]: the connections
    after it get nothing and the queue is not emptied. *)
Theorem sendVirtualBlocks_stops_at_missing_socket
        (before after : list (Z * jsstring)) (k : Z) (token : jsstring)
        (p : Payload) (s : State) :
  ids s = before ++ (k, token) :: after ->
  connected before s = true ->
  int_get k (socket s) = None ->
  sendVirtualBlocks stratumSerialize p s
  = (Throw TypeError,
     emit_all (map (write_of stratumSerialize (gPendingVirtualBlocks s) p)
                   before) s).
Proof.
  intros Hi Hc Hk. unfold sendVirtualBlocks.
  unfold bind at 1, gets at 1. unfold bind at 1. rewrite Hi.
  now rewrite send_each_missing_socket.
Qed.

(** Inbound data leaves the queue empty if it finds it empty. *)
Lemma onData_keeps_queue_empty payload s :
  connected (ids s) s = true ->
  gPendingVirtualBlocks s = [] ->
  gPendingVirtualBlocks
    (snd (onData stratumSerialize prepreVirtualBlocks payload s)) = [].
Proof.
  intros Hc Hq.
  destruct (JSON_parse payload) as [v|] eqn:Hp.
  2:{ unfold onData, stratumDeserialize. now rewrite Hp. }
  destruct (has_id v) eqn:Hid; [|now rewrite (onData_without_id _ _ _ v)].
  destruct v as [| | | | |kvs]; try discriminate. cbn [has_id] in Hid.
  destruct (lookup (js "result") kvs) as [r|] eqn:Hr.
  2:{ rewrite (onData_with_id _ _ _ kvs) by assumption.
      unfold bind. rewrite (onDataSetWork_parsed _ kvs) by assumption.
      now rewrite Hr. }
  destruct (structured r) eqn:Hs.
  - rewrite (onData_structured _ _ _ kvs r) by assumption.
    destruct (prepreVirtualBlocks payload) as [[|x l]|]; try exact Hq.
    rewrite submitVirtualBlocks_connected; try assumption; [reflexivity|].
    simpl; lia.
  - rewrite (onData_with_id _ _ _ kvs) by assumption.
    unfold bind. rewrite (onDataSetWork_parsed _ kvs) by assumption.
    rewrite Hr.
    destruct r; try discriminate;
      cbn [typeof jstype_eqb truthy]; rewrite ?andb_false_r; exact Hq.
Qed.

(** X17: in every state the client reaches by starts and inbound data,
    the pending queue is empty: a batch never waits for a later message,
    it is broadcast, or lost, within the handler that queued it. *)
Theorem reachable_queue_is_empty (s : State) :
  reachable stratumSerialize prepreVirtualBlocks s ->
  gPendingVirtualBlocks s = [].
Proof.
  induction 1 as [|random o s _ IH|payload s Hs IH].
  - reflexivity.
  - destruct (start_keeps_globals random o s) as [_ Hq]. now rewrite Hq.
  - apply onData_keeps_queue_empty; [|exact IH].
    now apply (reachable_connected stratumSerialize prepreVirtualBlocks).
Qed.
End QueueEdges.

(** ** The accessors before any work is stored *)

(** X18: while the global record holds no work (as at load time, or after
    [setCurrentWork(undefined)]), [getCurrentWork] returns [undefined] and
    [getCurrentWorkId] and [getCurrentDifficulty] throw a [TypeError]. *)
Theorem accessors_without_work (s : State) :
  flatten (lookup (js "work") (gCurrentWork s)) = undefined ->
  getCurrentWork s = (Ret undefined, s)
  /\ getCurrentWorkId s = (Throw TypeError, s)
  /\ getCurrentDifficulty s = (Throw TypeError, s).
Proof.
  intros H.
  unfold getCurrentWorkId, getCurrentDifficulty, getCurrentWork, bind, gets, lift.
  rewrite H. now repeat split.
Qed.

(** ** What inbound data never does *)

Lemma only_writes_ret {A : Type} (a : A) : only_writes (ret a).
Proof.
  intros s. repeat split. exists []. now rewrite app_nil_r.
Qed.

Lemma only_writes_lift {A : Type} (o : outcome A) : only_writes (lift o).
Proof.
  intros s. repeat split. exists []. now rewrite app_nil_r.
Qed.

Lemma only_writes_throw {A : Type} e : only_writes (@throw A e).
Proof.
  intros s. repeat split. exists []. now rewrite app_nil_r.
Qed.

Lemma only_writes_gets {A : Type} (f : State -> A) : only_writes (gets f).
Proof.
  intros s. repeat split. exists []. now rewrite app_nil_r.
Qed.

Lemma only_writes_bind {A B : Type} (c : M A) (k : A -> M B) :
  only_writes c -> (forall a, only_writes (k a)) -> only_writes (bind c k).
Proof.
  intros Hc Hk s. unfold bind. specialize (Hc s).
  destruct (c s) as [[a|e] s1]; cbn [snd] in *; [|exact Hc].
  destruct Hc as (H1 & H2 & H3 & l1 & H4 & H5).
  destruct (Hk a s1) as (K1 & K2 & K3 & l2 & K4 & K5).
  repeat split; try congruence.
  exists (l1 ++ l2). split.
  - now rewrite K4, H4, app_assoc.
  - rewrite forallb_app. now rewrite H5, K5.
Qed.

Lemma only_writes_modify (f : State -> State) :
  (forall s, ids (f s) = ids s /\ socket (f s) = socket s
             /\ workObjects (f s) = workObjects s /\ trace (f s) = trace s) ->
  only_writes (modify f).
Proof.
  intros H s. destruct (H s) as (H1 & H2 & H3 & H4). cbn [modify snd].
  repeat split; try assumption. exists []. now rewrite app_nil_r.
Qed.

Lemma only_writes_socket_write key data : only_writes (socket_write key data).
Proof.
  unfold socket_write. apply only_writes_bind; [apply only_writes_gets|].
  intros [sk|]; [|apply only_writes_throw].
  intros s. repeat split. now exists [EvWrite key data].
Qed.

Lemma only_writes_onDataSetWork payload : only_writes (onDataSetWork payload).
Proof.
  unfold onDataSetWork. cbv zeta.
  match goal with
  | |- only_writes (match ?x with _ => _ end) =>
      destruct x as [[data extra]|]
  end; [|apply only_writes_ret].
  apply only_writes_bind; [apply only_writes_lift|]. intros r.
  destruct (truthy r && jstype_eqb (typeof r) TObject);
    [|apply only_writes_ret].
  unfold setCurrentWork. apply only_writes_bind; [|intros; apply only_writes_ret].
  apply only_writes_modify. now repeat split.
Qed.

Section NeverDone.
Variable stratumSerialize : json -> jsstring.
Variable prepreVirtualBlocks : jsstring -> option (list json).

Lemma only_writes_send_each keys : forall p,
  only_writes (send_each stratumSerialize keys p).
Proof.
  induction keys as [|[k token] keys IH]; intros p; cbn [send_each].
  - apply only_writes_ret.
  - apply only_writes_bind; [apply only_writes_gets|]. intros pending.
    apply only_writes_bind; [apply only_writes_socket_write|]. intros _.
    apply IH.
Qed.

Lemma only_writes_submitVirtualBlocks vBlocks result :
  only_writes (submitVirtualBlocks stratumSerialize vBlocks result).
Proof.
  unfold submitVirtualBlocks. destruct vBlocks as [l|]; [|apply only_writes_ret].
  destruct (0 <? List.length l)%nat; [|apply only_writes_ret].
  apply only_writes_bind; [apply only_writes_modify; now repeat split|].
  intros _. unfold prepareToSendBlocks.
  repeat (apply only_writes_bind; [apply only_writes_lift|]; intros ?).
  apply only_writes_bind; [|intros; apply only_writes_ret].
  unfold sendVirtualBlocks.
  apply only_writes_bind; [apply only_writes_gets|]. intros keys.
  apply only_writes_bind; [apply only_writes_send_each|]. intros q.
  apply only_writes_bind; [|intros; apply only_writes_ret].
  apply only_writes_modify. now repeat split.
Qed.

(** X19: whatever the chunk, and whether it returns or throws, [onData]
    opens no connection, starts no server, and changes no token, socket or
    work object: all it adds to the trace are writes. *)
Theorem onData_only_writes (payload : jsstring) :
  only_writes (onData stratumSerialize prepreVirtualBlocks payload).
Proof.
  unfold onData.
  destruct (negb (truthy (stratumDeserialize (Some (JStr payload)))));
    [apply only_writes_ret|].
  apply only_writes_bind; [apply only_writes_lift|]. intros id.
  destruct (jstype_eqb (typeof id) TUndefined); [apply only_writes_ret|].
  apply only_writes_bind; [apply only_writes_lift|]. intros result.
  apply only_writes_bind; [apply only_writes_onDataSetWork|]. intros _.
  destruct (jstype_eqb (typeof result) TObject); [|apply only_writes_ret].
  repeat (apply only_writes_bind; [apply only_writes_lift|]; intros ?).
  apply only_writes_submitVirtualBlocks.
Qed.
End NeverDone.

(** ** Requests to the pool *)

Lemma stratumDeserialize_structured v :
  structured v = true -> stratumDeserialize (Some v) = Some v.
Proof. destruct v; try discriminate; reflexivity. Qed.

Section RequestProperties.
Variable stratumSerialize : json -> jsstring.
Variable subscribe : value.

Lemma submit_tracked payload k sk s :
  int_get k (socket s) = Some sk ->
  submit stratumSerialize payload k s
  = (Ret tt,
     emit (EvWrite k (stratumSerialize (or_null (stratumDeserialize payload))))
          s).
Proof.
  intros H. unfold submit, socket_write, bind, gets. now rewrite H.
Qed.

(** X20: [submit] sends the same text for a structured message and for its
    JSON serialization: in both cases what is written is the serialization
    of the message itself. *)
Theorem submit_text_or_structured (v : json) (k : Z) (s : State) :
  wf_json v = true ->
  structured v = true ->
  submit stratumSerialize (Some (JStr (JSON_stringify v))) k s
  = submit stratumSerialize (Some v) k s
  /\ submit stratumSerialize (Some v) k s
     = socket_write k (stratumSerialize v) s.
Proof.
  intros Hwf Hs. unfold submit.
  rewrite (stratumDeserialize_structured v Hs).
  unfold stratumDeserialize. rewrite JSON_parse_stringify by assumption.
  now split.
Qed.

Lemma ticks_tracked n : forall k sk s,
  int_get k (socket s) = Some sk ->
  ticks stratumSerialize n k s
  = (Ret tt,
     emit_all (repeat (EvWrite k (stratumSerialize getWork_body)) n) s).
Proof.
  induction n as [|n IH]; intros k sk s H.
  - cbn [ticks repeat]. now rewrite emit_all_nil.
  - cbn [ticks repeat]. unfold bind, submit_tick.
    rewrite (submit_tracked _ k sk) by assumption.
    rewrite (IH k sk) by exact H.
    now rewrite emit_all_cons.
Qed.

(** X21: the connect callback of a tracked socket writes the subscribe
    message to it and starts one timer of 2000 ms for it; the ticks of that
    timer each write the [eth_getWork] request to the same socket and
    change nothing else. *)
Theorem onConnect_subscribes_then_polls (k : Z) (sk : Socket)
        (server : PeerServer) (s : State) (ivs : list Interval) (n : nat) :
  int_get k (socket s) = Some sk ->
  let s1 := emit (EvWrite k (stratumSerialize
                               (or_null (stratumDeserialize subscribe)))) s in
  onConnect stratumSerialize subscribe k server (mkNode s ivs)
  = (Ret tt, mkNode s1 (ivs ++ [mkInterval k 2000]))
  /\ ticks stratumSerialize n k s1
     = (Ret tt,
        emit_all (repeat (EvWrite k (stratumSerialize getWork_body)) n) s1).
Proof.
  intros H s1. split.
  - unfold onConnect. cbn [node_state].
    now rewrite (submit_tracked _ k sk).
  - now apply (ticks_tracked n k sk).
Qed.
End RequestProperties.

(** ** The identity token *)

Lemma hex_val_hex_digit n : n < 16 -> hex_val (hex_digit n) = Some n.
Proof.
  intros H. destruct n as [|p]; [reflexivity|].
  split_pos 4%nat p; try reflexivity; lia.
Qed.

Lemma of_hex_to_hex bytes :
  Forall (fun b => b < 256) bytes -> of_hex (to_hex bytes) = Some bytes.
Proof.
  induction 1 as [|b bytes Hb _ IH]; [reflexivity|].
  unfold to_hex in *. cbn [flat_map app of_hex].
  rewrite !hex_val_hex_digit, IH.
  - f_equal. f_equal. rewrite N.mul_comm. symmetry. apply N.div_mod. discriminate.
  - apply N.mod_lt. discriminate.
  - apply N.Div0.div_lt_upper_bound. exact Hb.
Qed.

(** X22: the token a start keeps under the selected id is [0x] followed by
    two hexadecimal digits per byte drawn, from which the bytes are read
    back; so the tokens of two starts are equal only if the same bytes
    were drawn. *)
Theorem token_determines_the_bytes_drawn
        (r1 r2 : list N) (o1 o2 : Options) (s1 s2 : State) :
  (0 <= serverId o1)%Z ->
  (0 <= serverId o2)%Z ->
  Forall (fun b => b < 256) r1 ->
  Forall (fun b => b < 256) r2 ->
  int_get (serverId o1) (ids (snd (startClientWithAppServer r1 o1 s1)))
  = Some (js "0x" ++ to_hex r1)
  /\ of_hex (to_hex r1) = Some r1
  /\ List.length (js "0x" ++ to_hex r1) = (2 + 2 * List.length r1)%nat
  /\ (int_get (serverId o1) (ids (snd (startClientWithAppServer r1 o1 s1)))
      = int_get (serverId o2) (ids (snd (startClientWithAppServer r2 o2 s2)))
      -> r1 = r2).
Proof.
  intros H1 H2 Hb1 Hb2.
  assert (T1 : int_get (serverId o1)
                       (ids (snd (startClientWithAppServer r1 o1 s1)))
               = Some (js "0x" ++ to_hex r1)).
  { destruct (start_connections r1 o1 s1) as [Hi _].
    apply Z.leb_le in H1. rewrite H1 in Hi. rewrite Hi.
    apply int_get_set_same. }
  assert (T2 : int_get (serverId o2)
                       (ids (snd (startClientWithAppServer r2 o2 s2)))
               = Some (js "0x" ++ to_hex r2)).
  { destruct (start_connections r2 o2 s2) as [Hi _].
    apply Z.leb_le in H2. rewrite H2 in Hi. rewrite Hi.
    apply int_get_set_same. }
  split; [exact T1|]. split; [now apply of_hex_to_hex|]. split.
  - cbn [js map list_ascii_of_string app List.length]. f_equal. f_equal.
    unfold to_hex. clear. induction r1 as [|b r IH]; [reflexivity|].
    cbn [flat_map app List.length]. rewrite IH. lia.
  - rewrite T1, T2. intros E. injection E as E.
    apply (f_equal of_hex) in E.
    rewrite !of_hex_to_hex in E by assumption. now injection E.
Qed.

(** [shutdown] reads [this.client], which the client does not have. *)
Lemma shutdown_throws s : shutdown s = (Throw TypeError, s).
Proof. reflexivity. Qed.

(** ** The properties above, run *)


Lemma onData_null_result_throws_witness :
  JSON_parse chunk_null = Some (JObj fields_null)
  /\ has_key (js "id") fields_null = true
  /\ lookup (js "result") fields_null = Some JNull
  /\ onData line_serialize one_block chunk_null two_connections
     = (Throw TypeError, two_connections).
Proof.
  split; [reflexivity|]. split; [reflexivity|]. split; [reflexivity|].
  exact (onData_null_result_throws
           line_serialize one_block chunk_null fields_null two_connections
           eq_refl eq_refl eq_refl).
Defined.

Lemma onData_without_blocks_only_stores_witness :
  JSON_parse chunk_a = Some (JObj fields_a)
  /\ has_key (js "id") fields_a = true
  /\ lookup (js "result") fields_a = Some result_a
  /\ structured result_a = true
  /\ (no_block chunk_a = None \/ no_block chunk_a = Some [])
  /\ onData line_serialize no_block chunk_a two_connections
     = (Ret tt,
        set_gCurrentWork [(js "work", Some (JStr chunk_a))] two_connections).
Proof.
  split; [reflexivity|]. split; [reflexivity|]. split; [reflexivity|].
  split; [reflexivity|]. split; [left; reflexivity|].
  exact (onData_without_blocks_only_stores
           line_serialize no_block chunk_a fields_a result_a two_connections
           eq_refl eq_refl eq_refl eq_refl (or_introl eq_refl)).
Defined.

Lemma onData_work_message_broadcasts_witness :
  JSON_parse chunk_a = Some (JObj fields_a)
  /\ one_block chunk_a = Some [JStr (js "vb")]
  /\ connected (ids two_connections) two_connections = true
  /\ exists s',
       onData line_serialize one_block chunk_a two_connections = (Ret tt, s')
       /\ gCurrentWork s' = [(js "work", Some (JStr chunk_a))]
       /\ gPendingVirtualBlocks s' = []
       /\ List.length (trace s') = 2%nat.
Proof.
  split; [reflexivity|]. split; [reflexivity|]. split; [reflexivity|].
  destruct (onData_work_message_broadcasts
              line_serialize one_block chunk_a fields_a result_a
              [JStr (js "vb")] two_connections
              eq_refl eq_refl eq_refl eq_refl eq_refl ltac:(simpl; lia) eq_refl)
    as (s' & Hrun & Hw & Hq & _ & _ & Ht).
  exists s'. split; [exact Hrun|]. split; [exact Hw|]. split; [exact Hq|].
  rewrite Ht. reflexivity.
Defined.

Lemma onData_throws_only_for_null_result_witness :
  connected (ids two_connections) two_connections = true
  /\ fst (onData line_serialize one_block chunk_null two_connections)
     = Throw TypeError
  /\ fst (onData line_serialize one_block chunk_a two_connections)
     <> Throw TypeError.
Proof.
  split; [reflexivity|]. split.
  - apply (proj1 (onData_throws_only_for_null_result
                    line_serialize one_block chunk_null two_connections
                    eq_refl)).
    exists fields_null. repeat split.
  - intros H.
    apply (proj1 (onData_throws_only_for_null_result
                    line_serialize one_block chunk_a two_connections
                    eq_refl)) in H.
    destruct H as (kvs & Hp & _ & Hr).
    vm_compute in Hp. injection Hp as <-. discriminate.
Defined.

Lemma onData_drops_message_with_trailer_witness :
  wf_json (JObj fields_a) = true
  /\ skip_ws (10 :: chunk_b ++ [10]) <> []
  /\ onData line_serialize one_block
            (JSON_stringify (JObj fields_a) ++ 10 :: chunk_b ++ [10])
            two_connections
     = (Ret tt, two_connections).
Proof.
  split; [reflexivity|]. split; [discriminate|].
  exact (proj2 (onData_drops_message_with_trailer
                  line_serialize one_block fields_a (10 :: chunk_b ++ [10])
                  two_connections eq_refl ltac:(discriminate))).
Defined.

Lemma onDataSetWork_uses_first_of_two_witness :
  wf_json (JObj fields_a) = true
  /\ wf_json (JObj fields_b) = true
  /\ replace_braces (JSON_stringify (JObj fields_a))
     = JSON_stringify (JObj fields_a)
  /\ replace_braces (JSON_stringify (JObj fields_b))
     = JSON_stringify (JObj fields_b)
  /\ recover (JSON_stringify (JObj fields_a) ++ JSON_stringify (JObj fields_b))
     = Some (Some (JObj fields_a), Some (JObj fields_b))
  /\ onDataSetWork
       (JSON_stringify (JObj fields_a) ++ JSON_stringify (JObj fields_b))
       initial
     = onDataSetWork (JSON_stringify (JObj fields_a)) initial.
Proof.
  split; [reflexivity|]. split; [reflexivity|].
  split; [reflexivity|]. split; [reflexivity|].
  exact (onDataSetWork_uses_first_of_two
           fields_a fields_b initial eq_refl eq_refl eq_refl eq_refl).
Defined.

Lemma start_with_negative_serverId_witness :
  (serverId none_selected < 0)%Z
  /\ startClientWithAppServer drawn none_selected initial
     = (Ret tt,
        mkState [] [] [] [] [NewWorkObject]
                [EvListen 55752 (js "localhost")]).
Proof.
  split; [simpl; lia|].
  exact (start_with_negative_serverId drawn none_selected initial
                                      ltac:(simpl; lia)).
Defined.

Lemma start_with_missing_server_witness :
  (0 <= serverId beyond_servers)%Z
  /\ nth_error (servers beyond_servers) (Z.to_nat (serverId beyond_servers))
     = None
  /\ fst (startClientWithAppServer drawn beyond_servers initial)
     = Throw TypeError
  /\ trace (snd (startClientWithAppServer drawn beyond_servers initial)) = []
  /\ ids (snd (startClientWithAppServer drawn beyond_servers initial))
     = [(5%Z, js "0x" ++ to_hex drawn)].
Proof.
  split; [simpl; lia|]. split; [reflexivity|].
  rewrite (start_with_missing_server drawn beyond_servers initial
                                     ltac:(simpl; lia) eq_refl).
  repeat split.
Defined.

Lemma start_changes_selected_id_only_witness :
  (0 <= serverId two_peers)%Z
  /\ int_get 0%Z (ids (snd (startClientWithAppServer drawn_again two_peers
                                                      two_connections)))
     = Some (js "0x" ++ to_hex drawn_again)
  /\ int_get 1%Z (ids (snd (startClientWithAppServer drawn_again two_peers
                                                      two_connections)))
     = Some (js "0x0b").
Proof.
  split; [simpl; lia|].
  destruct (start_changes_selected_id_only
              drawn_again two_peers two_connections ltac:(simpl; lia))
    as (H0 & _ & Hother & _).
  split; [exact H0|].
  exact (proj1 (Hother 1%Z ltac:(simpl; lia))).
Defined.


Lemma restart_replaces_connection_witness :
  (0 <= serverId two_peers)%Z
  /\ nth_error (servers two_peers) (Z.to_nat (serverId two_peers)) = Some pool_a
  /\ ascending (map fst (ids started)) = true
  /\ int_get (serverId two_peers) (ids started) <> None
  /\ List.length
       (ids (snd (startClientWithAppServer drawn_again two_peers started)))
     = 1%nat
  /\ int_get 0%Z
       (ids (snd (startClientWithAppServer drawn_again two_peers started)))
     = Some (js "0x" ++ to_hex drawn_again).
Proof.
  split; [simpl; lia|]. split; [reflexivity|]. split; [reflexivity|].
  split; [discriminate|].
  destruct (restart_replaces_connection
              drawn_again two_peers pool_a started
              ltac:(simpl; lia) eq_refl eq_refl ltac:(discriminate))
    as (Hl & Hk & _).
  split; [exact Hl|exact Hk].
Defined.

Lemma sendVirtualBlocks_overwrites_txs_prefix_witness :
  connected (ids two_connections) two_connections = true
  /\ exists p' s',
       sendVirtualBlocks line_serialize used_payload two_connections
       = (Ret p', s')
       /\ p_txs p' = [JArr [JStr (js "b1")]; JArr [JStr (js "b2")];
                      JStr (js "old2")].
Proof.
  split; [reflexivity|].
  destruct (sendVirtualBlocks_overwrites_txs_prefix
              line_serialize used_payload two_connections eq_refl)
    as (p' & s' & Hrun & _ & Htxs & _).
  exists p', s'. split; [exact Hrun|].
  exact (Htxs ltac:(discriminate)).
Defined.

Lemma submitVirtualBlocks_without_connection_drops_witness :
  (0 < List.length [JStr (js "vb")])%nat
  /\ structured result_a = true
  /\ ids initial = []
  /\ submitVirtualBlocks line_serialize (Some [JStr (js "vb")]) (Some result_a)
                         initial
     = (Ret tt, initial).
Proof.
  split; [simpl; lia|]. split; [reflexivity|]. split; [reflexivity|].
  exact (submitVirtualBlocks_without_connection_drops
           line_serialize [JStr (js "vb")] result_a initial
           ltac:(simpl; lia) eq_refl eq_refl).
Defined.

Lemma failed_submission_is_sent_with_the_next_witness :
  get_index (Some JNull) 0 = Throw TypeError
  /\ connected (ids idle_connections) idle_connections = true
  /\ fst (submitVirtualBlocks line_serialize (Some [JStr (js "v1")])
                              (Some JNull) idle_connections)
     = Throw TypeError
  /\ exists s2,
       submitVirtualBlocks
         line_serialize (Some [JStr (js "v2")]) (Some result_a)
         (snd (submitVirtualBlocks line_serialize (Some [JStr (js "v1")])
                                   (Some JNull) idle_connections))
       = (Ret tt, s2)
       /\ gPendingVirtualBlocks s2 = [].
Proof.
  split; [reflexivity|]. split; [reflexivity|].
  destruct (failed_submission_is_sent_with_the_next
              line_serialize [JStr (js "v1")] [JStr (js "v2")] (Some JNull)
              result_a idle_connections
              ltac:(simpl; lia) ltac:(simpl; lia) eq_refl eq_refl eq_refl)
    as (H1 & s2 & H2 & Hq & _).
  rewrite H1. split; [reflexivity|].
  exists s2. split; [exact H2|exact Hq].
Defined.

Lemma sendVirtualBlocks_stops_at_missing_socket_witness :
  ids socket_missing = [(0%Z, js "0x0a")] ++ (1%Z, js "0x0b") :: [(2%Z, js "0x0c")]
  /\ connected [(0%Z, js "0x0a")] socket_missing = true
  /\ int_get 1%Z (socket socket_missing) = None
  /\ fst (sendVirtualBlocks line_serialize (fresh_payload JNull) socket_missing)
     = Throw TypeError
  /\ List.length
       (trace (snd (sendVirtualBlocks line_serialize (fresh_payload JNull)
                                      socket_missing)))
     = 1%nat
  /\ gPendingVirtualBlocks
       (snd (sendVirtualBlocks line_serialize (fresh_payload JNull)
                               socket_missing))
     = [JArr [JStr (js "b1")]].
Proof.
  split; [reflexivity|]. split; [reflexivity|]. split; [reflexivity|].
  rewrite (sendVirtualBlocks_stops_at_missing_socket
             line_serialize [(0%Z, js "0x0a")] [(2%Z, js "0x0c")] 1%Z
             (js "0x0b") (fresh_payload JNull) socket_missing
             eq_refl eq_refl eq_refl).
  repeat split.
Defined.

Lemma reachable_queue_is_empty_witness :
  reachable line_serialize one_block
            (snd (onData line_serialize one_block chunk_a started))
  /\ gPendingVirtualBlocks
       (snd (onData line_serialize one_block chunk_a started)) = [].
Proof.
  assert (R : reachable line_serialize one_block
                        (snd (onData line_serialize one_block chunk_a started)))
    by (apply reach_data, reach_start, reach_initial).
  split; [exact R|].
  exact (reachable_queue_is_empty line_serialize one_block _ R).
Defined.

Lemma accessors_without_work_witness :
  flatten (lookup (js "work") (gCurrentWork initial)) = undefined
  /\ getCurrentWork initial = (Ret undefined, initial)
  /\ getCurrentWorkId initial = (Throw TypeError, initial)
  /\ getCurrentDifficulty initial = (Throw TypeError, initial).
Proof.
  split; [reflexivity|].
  exact (accessors_without_work initial eq_refl).
Defined.

Lemma submit_text_or_structured_witness :
  wf_json getWork_body = true
  /\ structured getWork_body = true
  /\ submit line_serialize (Some (JStr (JSON_stringify getWork_body))) 0
            two_connections
     = submit line_serialize (Some getWork_body) 0 two_connections.
Proof.
  split; [reflexivity|]. split; [reflexivity|].
  exact (proj1 (submit_text_or_structured
                  line_serialize getWork_body 0 two_connections
                  eq_refl eq_refl)).
Defined.

Lemma onConnect_subscribes_then_polls_witness :
  int_get 0%Z (socket two_connections) = Some no_socket
  /\ fst (onConnect line_serialize subscribe_body 0 pool_a
                    (mkNode two_connections []))
     = Ret tt
  /\ intervals (snd (onConnect line_serialize subscribe_body 0 pool_a
                               (mkNode two_connections [])))
     = [mkInterval 0 2000].
Proof.
  split; [reflexivity|].
  rewrite (proj1 (onConnect_subscribes_then_polls
                    line_serialize subscribe_body 0 no_socket pool_a
                    two_connections [] 3 eq_refl)).
  split; reflexivity.
Defined.

Lemma token_determines_the_bytes_drawn_witness :
  (0 <= serverId two_peers)%Z
  /\ Forall (fun b => b < 256) drawn
  /\ Forall (fun b => b < 256) drawn_again
  /\ of_hex (to_hex drawn) = Some drawn
  /\ List.length (js "0x" ++ to_hex drawn) = 66%nat.
Proof.
  assert (F1 : Forall (fun b => b < 256) drawn)
    by (apply Forall_forall; intros b Hb; apply repeat_spec in Hb;
        subst b; reflexivity).
  assert (F2 : Forall (fun b => b < 256) drawn_again)
    by (apply Forall_forall; intros b Hb; apply repeat_spec in Hb;
        subst b; reflexivity).
  split; [simpl; lia|]. split; [exact F1|]. split; [exact F2|].
  destruct (token_determines_the_bytes_drawn
              drawn drawn_again two_peers two_peers initial initial
              ltac:(simpl; lia) ltac:(simpl; lia) F1 F2)
    as (_ & Hh & Hl & _).
  split; [exact Hh|exact Hl].
Defined.
